(** * Tagmetry: third-party notices generator and drift checker

    A shallow embedding of [scripts/generate_third_party_notices.py] and
    [scripts/check_third_party_notices.py], and the properties of the
    notice pipeline proved over it.

    Conventions of the embedding.
    - A Python [str] is a [string]; a character stands for a code point
      below 256, which is the range on which [str.lower], [str.strip] and
      the regular expression of [safe_file_name] are modelled.
    - A [dict] with string keys is a [gmap string string]; a [set] of
      pairs is a [gset (string * string)].
    - Code that can raise returns a [result]; the functions of the
      standard library that touch the outside world (the XML parser, the
      network, the file system, child processes) are fields of an
      environment record, which gives what a call returns or the
      exception it raises.
    - Python iterates a [set] in the order of its hash table, and the
      hashes of strings are salted per process, so that order is not a
      function of the contents of the set: it is a parameter [set_iter] of
      a run, constrained to enumerate the set. *)

From Stdlib Require Import Ascii NArith ZArith Sorting.Sorted.
From stdpp Require Import base option list strings gmap sorting.

Set Warnings "-register-all,-clear-no-such-hyp".
Local Open Scope N_scope.

(** ** Python strings *)

Module Py.

Definition ord (c : ascii) : N := N_of_ascii c.

(** [str.isspace] on one character: the ASCII white space of
    [_Py_ascii_whitespace] and the two Latin-1 spaces U+0085, U+00A0. *)
Definition isspace (c : ascii) : bool :=
  let n := ord c in
  ((9 <=? n) && (n <=? 13)) || ((28 <=? n) && (n <=? 32))
  || (n =? 133) || (n =? 160).

Fixpoint lstrip (s : string) : string :=
  match s with
  | EmptyString => EmptyString
  | String c r => if isspace c then lstrip r else s
  end.

Fixpoint rstrip (s : string) : string :=
  match s with
  | EmptyString => EmptyString
  | String c r =>
      match rstrip r with
      | EmptyString => if isspace c then EmptyString else String c EmptyString
      | r' => String c r'
      end
  end.

Definition strip (s : string) : string := rstrip (lstrip s).

(** [str.lower] on one character: A-Z and the upper-case letters of
    Latin-1 (U+00C0..U+00DE without the multiplication sign U+00D7). *)
Definition lower_char (c : ascii) : ascii :=
  let n := ord c in
  if ((65 <=? n) && (n <=? 90)) || ((192 <=? n) && (n <=? 214))
     || ((216 <=? n) && (n <=? 222))
  then ascii_of_N (n + 32) else c.

Fixpoint lower (s : string) : string :=
  match s with
  | EmptyString => EmptyString
  | String c r => String (lower_char c) (lower r)
  end.

(** Truth value of a string: [bool(s)]. *)
Definition truthy (s : string) : bool :=
  match s with EmptyString => false | String _ _ => true end.

(** [a or b] on strings. *)
Definition or_ (a b : string) : string := if truthy a then a else b.

(** Truth value of [d.get(k)], which is [None] or a string. *)
Definition truthy_opt (o : option string) : bool :=
  match o with Some s => truthy s | None => false end.

(** [o is not None]; also the truth value of an optional path. *)
Definition is_not_None {A} (o : option A) : bool :=
  match o with Some _ => true | None => false end.

(** [sep.join(l)]. *)
Fixpoint join (sep : string) (l : list string) : string :=
  match l with
  | [] => EmptyString
  | [x] => x
  | x :: r => x +:+ sep +:+ join sep r
  end.

Fixpoint drop (n : nat) (s : string) : string :=
  match n, s with
  | O, _ => s
  | S _, EmptyString => EmptyString
  | S m, String _ r => drop m r
  end.

(** [s[-k:]]: the last [k] characters, the whole string when it is
    shorter. *)
Definition slice_from_end (k : nat) (s : string) : string :=
  drop (String.length s - k) s.

(** [s.endswith(suffix)]. *)
Definition endswith (s suffix : string) : bool :=
  String.eqb (slice_from_end (String.length suffix) s) suffix
  && (String.length suffix <=? String.length s)%nat.

(** Comparison of strings is by code point, of tuples lexicographic:
    [a < b] on 2-tuples and 3-tuples of strings. *)
Definition str_ltb (a b : string) : bool := String.ltb a b.

Definition tuple2_ltb (a b : string * string) : bool :=
  match String.compare a.1 b.1 with
  | Lt => true
  | Eq => str_ltb a.2 b.2
  | Gt => false
  end.

Definition tuple3_ltb (a b : string * string * string) : bool :=
  match String.compare a.1.1 b.1.1 with
  | Lt => true
  | Eq => tuple2_ltb (a.1.2, a.2) (b.1.2, b.2)
  | Gt => false
  end.

(** [sorted(l, key=key)]. Python's sort is stable and compares keys with
    [<] only; a stable sort has one possible result, here computed by
    insertion from the right: an element goes before the first element
    of the sorted rest whose key is not smaller. *)
Section Sorted.
Context {A K : Type} (key : A -> K) (ltb : K -> K -> bool).

Fixpoint insert (x : A) (l : list A) : list A :=
  match l with
  | [] => [x]
  | y :: r => if ltb (key y) (key x) then y :: insert x r else x :: l
  end.

Fixpoint sorted (l : list A) : list A :=
  match l with
  | [] => []
  | x :: r => insert x (sorted r)
  end.
End Sorted.

(** Exceptions, and results of code that may raise.  [OSError] stands
    for an [OSError] of any other subclass ([FileNotFoundError],
    [PermissionError], [FileExistsError], a refused file name, ...). *)
Inductive exn : Set :=
| ParseError
| NotADirectoryError
| IsADirectoryError
| OSError.

Inductive result (A : Type) : Type :=
| Ok (a : A)
| Raise (e : exn).
Global Arguments Ok {A} a.
Global Arguments Raise {A} e.

Definition bind {A B} (m : result A) (k : A -> result B) : result B :=
  match m with Ok a => k a | Raise e => Raise e end.

(** [for x in l: body], where the body may raise. *)
Fixpoint for_each {A S} (body : S -> A -> result S) (l : list A) (s : S)
  : result S :=
  match l with
  | [] => Ok s
  | x :: r => bind (body s x) (for_each body r)
  end.

(** [[f(x) for x in l]], where [f] may raise. *)
Fixpoint map_result {A B} (f : A -> result B) (l : list A)
  : result (list B) :=
  match l with
  | [] => Ok []
  | x :: r =>
      bind (f x) (fun y => bind (map_result f r) (fun ys => Ok (y :: ys)))
  end.

End Py.

Notation "'let*' x ':=' m 'in' k" := (Py.bind m (fun x => k))
  (at level 10, x pattern, m at level 100, k at level 200).

(** ** xml.etree.ElementTree *)

Module ET.

(** An element: tag, attribute dictionary, text (or [None]) and
    children in document order. *)
Inductive Element : Type :=
| Elem (tag : string) (attrib : gmap string string)
       (text : option string) (children : list Element).

Definition tag (e : Element) : string :=
  match e with Elem t _ _ _ => t end.
Definition attrib (e : Element) : gmap string string :=
  match e with Elem _ a _ _ => a end.
Definition text (e : Element) : option string :=
  match e with Elem _ _ t _ => t end.
Definition children (e : Element) : list Element :=
  match e with Elem _ _ _ c => c end.

(** [e.iter()]: the element, then its descendants, in document order. *)
Fixpoint iter (e : Element) : list Element :=
  match e with
  | Elem _ _ _ cs => e :: flat_map iter cs
  end.

(** The elements of [e.iter()] other than [e] itself. *)
Definition descendants (e : Element) : list Element :=
  flat_map iter (children e).

(** The paths the scripts use, as ElementPath tokenizes them: a tag
    test is a plain tag ["name"] or a tag in any or no namespace
    ["{*}name"]; a step is [.], a child step [/tag] or a descendant
    step [//tag]. *)
Inductive tagsel : Set :=
| Tag (name : string)
| AnyNs (name : string).

Inductive step : Set :=
| Self
| Child (t : tagsel)
| Descendant (t : tagsel).

Definition select_tag (t : tagsel) (e : Element) : bool :=
  match t with
  | Tag name => String.eqb (tag e) name
  | AnyNs name =>
      String.eqb (tag e) name
      || String.eqb
           (Py.slice_from_end (String.length ("}" +:+ name)) (tag e))
           ("}" +:+ name)
  end.

Definition select (s : step) (result : list Element) : list Element :=
  match s with
  | Self => result
  | Child t => List.filter (select_tag t) (flat_map children result)
  | Descendant t => List.filter (select_tag t) (flat_map descendants result)
  end.

Definition iterfind (e : Element) (path : list step) : list Element :=
  fold_left (fun result s => select s result) path [e].

Definition findall := iterfind.

Definition find (e : Element) (path : list step) : option Element :=
  head (iterfind e path).

Definition findtext (e : Element) (path : list step) : option string :=
  match find e path with
  | Some n => Some (default "" (text n))
  | None => None
  end.

End ET.

(** ** scripts/generate_third_party_notices.py *)

Module Generate.
Import Py ET.

Definition nl : string := String "010"%char EmptyString.

Definition LICENSE_FILE_CANDIDATES : list string :=
  [ "LICENSE";
    "LICENSE.txt";
    "LICENSE.md";
    "COPYING";
    "COPYING.txt";
    "NOTICE";
    "NOTICE.txt" ].

Record Component : Type := {
  name : string;
  version : string;
  source : string;
  license_name : string;
  license_url : string;
  homepage : string;
  notes : string
}.

(** The dictionary [fetch_nuspec_metadata] returns: its four keys. *)
Record Meta : Type := {
  meta_license_name : string;
  meta_license_url : string;
  meta_homepage : string;
  meta_notes : string
}.

(** The part of the file system under [root / "third_party"]: a file
    that can be read, with the text
    [read_text(encoding="utf-8", errors="replace")] returns, or a
    directory that can be listed, with its entries in [iterdir] order. *)
Inductive node : Type :=
| File (contents : string)
| Dir (entries : list (string * node)).

Definition is_dir (n : node) : bool :=
  match n with Dir _ => true | File _ => false end.

Fixpoint child (entries : list (string * node)) (n : string) : option node :=
  match entries with
  | [] => None
  | (m, x) :: r => if String.eqb m n then Some x else child r n
  end.

(** [p / n] when it exists, for [p] a path that may not exist. *)
Definition resolve (p : option node) (n : string) : option node :=
  match p with
  | Some (Dir entries) => child entries n
  | _ => None
  end.

(** The world a run of the generator reads and writes.
    - [glob_csproj]: the paths [root.glob("src/**/*.csproj")] yields, in
      the order it yields them;
    - [ET_parse]: the root of [ET.parse(path)], or the exception it
      raises: [ParseError] on a file that is not well-formed,
      [IsADirectoryError] on a directory whose name ends in [.csproj],
      [OSError] on a file that cannot be opened;
    - [urlopen_read]: the body [urlopen(url, timeout=20)] delivers,
      [None] when opening or reading raises;
    - [ET_fromstring]: [ET.fromstring(data)], [None] when it raises
      [ParseError];
    - [third_party]: [root / "third_party"], [None] when it does not
      exist;
    - [licenses_dir]: the plain files of [LICENSES_DIR] before the run,
      [None] when it is not a directory;
    - [clear_error]: the exception raised while the old records are
      unlinked and [LICENSES_DIR] is created, [None] when both succeed.
      [glob("*.txt")] also yields directories, on which [unlink]
      raises, [unlink] raises on a file that may not be removed, and
      [mkdir] raises when [LICENSES_DIR] is a plain file or may not be
      created;
    - [write_error]: the exception [write_text] raises when it writes
      the file of this name in [LICENSES_DIR], [None] when the file
      is written: the file system refuses a name that is too long, and
      a file that may not be created or overwritten;
    - [notice_error]: the same for [NOTICE_PATH.write_text]. *)
Record Env : Type := {
  glob_csproj : list string;
  ET_parse : string -> result Element;
  urlopen_read : string -> option string;
  ET_fromstring : string -> option Element;
  third_party : option node;
  licenses_dir : option (gmap string string);
  clear_error : option exn;
  write_error : string -> option exn;
  notice_error : option exn
}.

(** [o or b] for [o] a string or [None]. *)
Definition opt_or (o : option string) (b : string) : string :=
  match o with
  | Some s => or_ s b
  | None => b
  end.

Definition PackageReference_path : list step :=
  [Self; Descendant (Tag "PackageReference")].

Definition Version_path : list step := [Child (Tag "Version")].

(** The inner loop of [read_csproj_packages] on one [PackageReference]
    node: the values of [include] and [version], the guard with the
    pair it lets through, and the update of the set. *)
Definition include_of (node : Element) : option string :=
  attrib node !! "Include".

Definition version_of (node : Element) : string :=
  opt_or (attrib node !! "Version")
         (opt_or (findtext node Version_path) "").

Definition reference_pair (node : Element) : option (string * string) :=
  match include_of node with
  | Some include =>
      if truthy include && truthy (version_of node)
      then Some (strip include, strip (version_of node))
      else None
  | None => None
  end.

Definition add_reference (packages : gset (string * string)) (node : Element)
  : gset (string * string) :=
  match reference_pair node with
  | Some p => {[ p ]} ∪ packages
  | None => packages
  end.

(** A set iterator enumerates the set: each element once, in some
    order. *)
Definition enumerates
  (set_iter : gset (string * string) -> list (string * string)) : Prop :=
  forall X, set_iter X ≡ₚ elements X.

Definition nuspec_url (package_id version : string) : string :=
  let package_l := lower package_id in
  let version_l := lower version in
  "https://api.nuget.org/v3-flatcontainer/" +:+ package_l +:+ "/"
  +:+ version_l +:+ "/" +:+ package_l +:+ ".nuspec".

Definition package_key (x : string * string) : string * string :=
  (lower x.1, x.2).

Definition component_key (c : Component) : string * string * string :=
  (source c, lower (name c), version c).

Definition meta_path (field : string) : list step :=
  [Self; Descendant (AnyNs "metadata"); Child (AnyNs field)].

(** The inner function [txt] of [fetch_nuspec_metadata]. *)
Definition txt (root : Element) (xpath : list step) : string :=
  match find root xpath with
  | Some node =>
      if truthy_opt (text node) then strip (opt_or (text node) "") else ""
  | None => ""
  end.

(** [fetch_nuspec_metadata] from the parsed document [root] on: the
    three fields read with [txt], the derivation of [license_name] and
    the dictionary returned. *)
Definition metadata_of_document (root : Element) : Meta :=
  let project_url := txt root (meta_path "projectUrl") in
  let license_expr := txt root (meta_path "license") in
  let license_url := txt root (meta_path "licenseUrl") in
  let license_name := or_ license_expr "UNKNOWN" in
  let license_name :=
    if truthy license_expr
       && is_not_None (find root (meta_path "license"))
    then
      let lic := find root (meta_path "license") in
      let type :=
        lower (default "" (l ← lic; attrib l !! "type")) in
      if is_not_None lic && String.eqb type "expression"
      then "SPDX: " +:+ license_expr
      else if is_not_None lic && String.eqb type "file"
      then "License file: " +:+ license_expr
      else license_name
    else license_name in
  {| meta_license_name := license_name;
     meta_license_url := license_url;
     meta_homepage := project_url;
     meta_notes := "" |}.

Definition safe_char (c : ascii) : bool :=
  let n := ord c in
  ((65 <=? n) && (n <=? 90)) || ((97 <=? n) && (n <=? 122))
  || ((48 <=? n) && (n <=? 57))
  || (n =? 46) || (n =? 95) || (n =? 45).

(** [re.sub(r"[^A-Za-z0-9._-]+", "_", value)]: every maximal run of
    characters outside the class becomes one underscore. [in_run] says
    that the previous character was in such a run. *)
Fixpoint sub_unsafe_runs (in_run : bool) (value : string) : string :=
  match value with
  | EmptyString => EmptyString
  | String c r =>
      if safe_char c then String c (sub_unsafe_runs false r)
      else if in_run then sub_unsafe_runs true r
      else String "_"%char (sub_unsafe_runs true r)
  end.

Definition safe_file_name (value : string) : string :=
  sub_unsafe_runs false value.

Definition file_name_of (component : Component) : string :=
  source component +:+ "_" +:+ safe_file_name (name component) +:+ "_"
  +:+ safe_file_name (version component) +:+ ".txt".

(** [next((d / n for n in LICENSE_FILE_CANDIDATES if (d / n).exists()), None)]:
    the first candidate that exists in [d], with what it names. *)
Fixpoint first_existing (d : option node) (candidates : list string)
  : option (string * node) :=
  match candidates with
  | [] => None
  | n :: r =>
      match resolve d n with
      | Some x => Some (n, x)
      | None => first_existing d r
      end
  end.

(** [p.read_text(...)]. *)
Definition read_text (x : node) : result string :=
  match x with
  | File contents => Ok contents
  | Dir _ => Raise IsADirectoryError
  end.

Definition bundled_component (item : string * node) : Component :=
  let lic_file := first_existing (Some item.2) LICENSE_FILE_CANDIDATES in
  let notes :=
    if is_not_None lic_file then "License file copied from bundled component."
    else "No bundled license file detected." in
  {| name := item.1;
     version := "bundled";
     source := "Bundled";
     license_name :=
       if is_not_None lic_file then "See bundled files" else "UNKNOWN";
     license_url := "";
     homepage := "";
     notes := notes |}.

(** The header block of a license record and its optional notes
    line: [lines] of [write_license_file] before the bundled text. *)
Definition record_lines (component : Component) : list string :=
  let lines :=
    [ "Component: " +:+ name component;
      "Version: " +:+ version component;
      "Source: " +:+ source component;
      "License: " +:+ license_name component;
      "License URL: " +:+ or_ (license_url component) "N/A";
      "Homepage: " +:+ or_ (homepage component) "N/A";
      "" ] in
  if truthy (notes component)
  then lines ++ ["Notes: " +:+ notes component]
  else lines.

(** What a run writes: the text of [THIRD_PARTY_NOTICES.md] and the
    files of [LICENSES_DIR] after the run. *)
Record Output : Type := {
  notice : string;
  licenses : gmap string string
}.

Section Run.
Variable set_iter : gset (string * string) -> list (string * string).
Variable env : Env.

(** The loops of [read_csproj_packages]: the set [packages] when
    they end. *)
Definition collected_packages : result (gset (string * string)) :=
  for_each
    (fun packages csproj =>
       let* tree := ET_parse env csproj in
       Ok (fold_left add_reference
             (findall tree PackageReference_path) packages))
    (glob_csproj env) ∅.

Definition read_csproj_packages : result (list (string * string)) :=
  let* packages := collected_packages in
  Ok (sorted package_key tuple2_ltb (set_iter packages)).

Definition fetch_nuspec_metadata (package_id version : string)
  : result Meta :=
  let url := nuspec_url package_id version in
  match urlopen_read env url with
  | None =>
      Ok {| meta_license_name := "UNKNOWN";
            meta_license_url := "";
            meta_homepage := "";
            meta_notes :=
              "Unable to fetch nuspec metadata from nuget.org in this environment." |}
  | Some data =>
      match ET_fromstring env data with
      | None => Raise ParseError
      | Some root => Ok (metadata_of_document root)
      end
  end.

Definition detect_bundled_components : result (list Component) :=
  match third_party env with
  | None => Ok []
  | Some (File _) => Raise NotADirectoryError
  | Some (Dir entries) =>
      let items :=
        sorted (fun p : string * node => lower p.1) str_ltb
               (List.filter (fun p : string * node => is_dir p.2) entries) in
      Ok (map bundled_component items)
  end.

(** [write_license_file] up to its last statement: the name of the
    file under [out_dir] and the text handed to [write_text], or the
    exception [read_text] raises.  The function is called once
    [LICENSES_DIR] exists, where its [mkdir] does nothing; the write
    itself is [write_text] below. *)
Definition write_license_file (component : Component)
  : result (string * string) :=
  let file_name := file_name_of component in
  let lines := record_lines component in
  let* lines :=
    if String.eqb (source component) "Bundled" then
      let bundled_dir := resolve (third_party env) (name component) in
      match first_existing bundled_dir LICENSE_FILE_CANDIDATES with
      | Some (_, lic_file) =>
          let lines := lines ++ [""; "----- Bundled license text -----"; ""] in
          let* body := read_text lic_file in
          Ok (lines ++ [body])
      | None => Ok lines
      end
    else Ok lines in
  Ok (file_name, rstrip (join nl lines) +:+ nl).

Definition nuget_component (package : string * string) : result Component :=
  let '(package_id, version) := package in
  let* meta := fetch_nuspec_metadata package_id version in
  Ok {| name := package_id;
        version := version;
        source := "NuGet";
        license_name := meta_license_name meta;
        license_url := meta_license_url meta;
        homepage := meta_homepage meta;
        notes := meta_notes meta |}.

(** The sorted component list [generate] builds before it writes. *)
Definition components : result (list Component) :=
  let* packages := read_csproj_packages in
  let* nuget := map_result nuget_component packages in
  let* bundled := detect_bundled_components in
  Ok (sorted component_key tuple3_ltb (nuget ++ bundled)).

Definition table_row (comp : Component) : string :=
  "| " +:+ source comp +:+ " | " +:+ name comp +:+ " | " +:+ version comp
  +:+ " | " +:+ license_name comp +:+ " | "
  +:+ or_ (license_url comp) "" +:+ " |".

Definition notice_text (components : list Component) : string :=
  let lines :=
    [ "# THIRD_PARTY_NOTICES";
      "";
      "This file is generated by `scripts/generate_third_party_notices.py`.";
      "";
      "## Included third-party components";
      "";
      "| Source | Name | Version | License | License URL |";
      "|---|---|---|---|---|" ]
    ++ map table_row components
    ++ [ "";
         "## Per-component license files";
         "";
         "Detailed records are written to the `LICENSES/` directory." ] in
  rstrip (join nl lines) +:+ nl.

(** The files of [LICENSES_DIR] once the old [*.txt] files are unlinked
    and the directory is (re)created. *)
Definition cleared_licenses_dir : gmap string string :=
  match licenses_dir env with
  | Some files =>
      filter (fun kv : string * string => endswith kv.1 ".txt" = false) files
  | None => ∅
  end.

(** The unlink loop and [LICENSES_DIR.mkdir] of [generate]. *)
Definition clear_licenses_dir : result (gmap string string) :=
  match clear_error env with
  | Some e => Raise e
  | None => Ok cleared_licenses_dir
  end.

(** [out.write_text(contents)] for [out = LICENSES_DIR / file_name]: the
    file is created or overwritten. *)
Definition write_text (dir : gmap string string)
    (file_name contents : string) : result (gmap string string) :=
  match write_error env file_name with
  | Some e => Raise e
  | None => Ok (<[file_name := contents]> dir)
  end.

(** The body of the loop of [generate] that writes the license
    records: one call of [write_license_file]. *)
Definition write_record (dir : gmap string string) (comp : Component)
  : result (gmap string string) :=
  let* (file_name, contents) := write_license_file comp in
  write_text dir file_name contents.

(** [NOTICE_PATH.write_text(content)]. *)
Definition write_notice (content : string) : result string :=
  match notice_error env with
  | Some e => Raise e
  | None => Ok content
  end.

Definition generate : result Output :=
  let* components := components in
  let* dir := clear_licenses_dir in
  let* dir := for_each write_record components dir in
  let* notice := write_notice (notice_text components) in
  Ok {| notice := notice; licenses := dir |}.

End Run.

End Generate.

(** ** scripts/check_third_party_notices.py *)

Module Check.
Import Py.

Record CompletedProcess : Type := {
  returncode : Z;
  stdout : string;
  stderr : string
}.

(** The two output streams of the checker, and code that writes to
    them. *)
Record Streams : Type := { sys_stdout : string; sys_stderr : string }.

Definition IO (A : Type) : Type := Streams -> A * Streams.

Global Instance IO_ret : MRet IO := fun A (a : A) s => (a, s).

Global Instance IO_bind : MBind IO :=
  fun A B (k : A -> IO B) (m : IO A) s => let '(a, s') := m s in k a s'.

Definition stdout_write (t : string) : IO unit :=
  fun s => (tt, {| sys_stdout := sys_stdout s +:+ t; sys_stderr := sys_stderr s |}).

Definition stderr_write (t : string) : IO unit :=
  fun s => (tt, {| sys_stdout := sys_stdout s; sys_stderr := sys_stderr s +:+ t |}).

Definition print (t : string) : IO unit := stdout_write (t +:+ Generate.nl).

Definition OUT_OF_DATE : string :=
  "[ERROR] THIRD_PARTY_NOTICES.md and/or LICENSES are out of date. Run generator and commit changes.".
Definition UNTRACKED : string :=
  "[ERROR] Untracked notices/license files detected:".
Definition UP_TO_DATE : string :=
  "[OK] THIRD_PARTY_NOTICES and LICENSES are present and up-to-date.".

Section Main.
(** [sys.executable], and [run]: the completed child process of a
    command line. *)
Variable sys_executable : string.
Variable run : list string -> CompletedProcess.

Definition main : IO Z :=
  let gen := run [sys_executable; "scripts/generate_third_party_notices.py"] in
  stdout_write (stdout gen) ;;
  stderr_write (stderr gen) ;;
  if negb (returncode gen =? 0)%Z then mret (returncode gen)
  else
    let diff :=
      run ["git"; "diff"; "--exit-code"; "--"; "THIRD_PARTY_NOTICES.md"; "LICENSES"] in
    if negb (returncode diff =? 0)%Z then
      (print OUT_OF_DATE ;;
       stdout_write (stdout diff) ;;
       stderr_write (stderr diff) ;;
       mret 1%Z)
    else
      let others :=
        run ["git"; "ls-files"; "--others"; "--exclude-standard";
             "THIRD_PARTY_NOTICES.md"; "LICENSES"] in
      if (returncode others =? 0)%Z && truthy (strip (stdout others)) then
        (print UNTRACKED ;;
         print (strip (stdout others)) ;;
         mret 1%Z)
      else
        (print UP_TO_DATE ;;
         mret 0%Z).
End Main.

End Check.

(** * Vocabulary of the properties *)

Import Py ET Generate.

(** [all_chars P s]: every character of [s] passes the test [P]. *)
Fixpoint all_chars (P : ascii -> bool) (s : string) : bool :=
  match s with
  | EmptyString => true
  | String c r => P c && all_chars P r
  end.

(** The comparisons [<] the scripts sort with are strict total orders. *)
Record strict_total {K : Type} (ltb : K -> K -> bool) : Prop := {
  st_asym : forall a b, ltb a b = true -> ltb b a = false;
  st_trans : forall a b c, ltb a b = true -> ltb b c = true -> ltb a c = true;
  st_tricho : forall a b, ltb a b = false -> ltb b a = false -> a = b
}.

(** [x] may stand before [y] in a list sorted by [key]: the key of [y]
    is not smaller. *)
Definition key_le {A K : Type} (key : A -> K) (ltb : K -> K -> bool)
    (x y : A) : Prop :=
  ltb (key y) (key x) = false.

(** [node] is a dependency entry of a manifest: a [PackageReference]
    element of a manifest the glob yields. *)
Definition declared (env : Env) (node : Element) : Prop :=
  exists csproj tree,
    csproj ∈ glob_csproj env /\ ET_parse env csproj = Ok tree /\
    node ∈ findall tree PackageReference_path.

(** Python's [a <= b] on 2-tuples of strings. *)
Definition tuple2_le (a b : string * string) : Prop :=
  String.compare a.1 b.1 = Lt \/ (a.1 = b.1 /\ String.le a.2 b.2).

(** [x] occurs exactly once in [l]. *)
Definition occurs_once {A} (x : A) (l : list A) : Prop :=
  exists l1 l2, l = l1 ++ (x :: l2) /\ (x ∉ l1) /\ (x ∉ l2).

(** Every manifest the glob yields is well-formed XML. *)
Definition manifests_parse (env : Env) : Prop :=
  forall csproj,
    csproj ∈ glob_csproj env -> exists tree, ET_parse env csproj = Ok tree.






Definition unknown_meta (m : Meta) : Prop :=
  meta_license_name m = "UNKNOWN" /\ meta_license_url m = "" /\
  meta_homepage m = "" /\ meta_notes m <> "".

(** No license can be determined for the package: the registry cannot
    be reached, or the document has no license text. *)
Definition no_registry_license (env : Env) (package_id version : string)
  : Prop :=
  urlopen_read env (nuspec_url package_id version) = None
  \/ exists data root,
       urlopen_read env (nuspec_url package_id version) = Some data
       /\ ET_fromstring env data = Some root
       /\ txt root (meta_path "license") = "".

(** The identity of a component. *)
Definition identity (c : Component) : string * string * string :=
  (source c, name c, version c).

(** The source kinds the generator gives its components. *)
Definition emitted_source (c : Component) : Prop :=
  source c = "NuGet" \/ source c = "Bundled".





(** The three child processes of the checker, and what their results
    mean: [git diff --exit-code] returns non-zero when the regenerated
    files differ from the version-controlled copies, and
    [git ls-files --others] prints the untracked files under the output
    paths. *)
Definition generator_cmd (sys_executable : string) : list string :=
  [sys_executable; "scripts/generate_third_party_notices.py"].

Definition diff_cmd : list string :=
  ["git"; "diff"; "--exit-code"; "--"; "THIRD_PARTY_NOTICES.md"; "LICENSES"].

Definition others_cmd : list string :=
  ["git"; "ls-files"; "--others"; "--exclude-standard";
   "THIRD_PARTY_NOTICES.md"; "LICENSES"].

Definition differs (diff : Check.CompletedProcess) : Prop :=
  Check.returncode diff <> 0%Z.

Definition untracked_present (others : Check.CompletedProcess) : Prop :=
  Check.returncode others = 0%Z /\ strip (Check.stdout others) <> "".

(** What stands before the bundled license text in the record of a
    component: the header block, the notes line and the separator. *)
Definition record_header (c : Component) : string :=
  join nl (record_lines c ++ [""; "----- Bundled license text -----"; ""])
  +:+ nl.

(** [sub in s]. *)
Fixpoint starts_with (s sub : string) {struct sub} : bool :=
  match sub, s with
  | EmptyString, _ => true
  | String c r, String d t => Ascii.eqb c d && starts_with t r
  | String _ _, EmptyString => false
  end.

Fixpoint contains (s sub : string) : bool :=
  starts_with s sub
  || match s with
     | EmptyString => false
     | String _ r => contains r sub
     end.

(** [n] is the first of the [candidates] that exists in [d], and names
    [x]. *)
Definition first_match (d : option node) (candidates : list string)
    (n : string) (x : node) : Prop :=
  exists i : nat,
    candidates !! i = Some n /\ resolve d n = Some x
    /\ forall (j : nat) m, (j < i)%nat -> candidates !! j = Some m ->
         resolve d m = None.

(** No two collected pairs differ only in the letter case of the name. *)
Definition keys_distinct (env : Env) : Prop :=
  forall Y p q,
    collected_packages env = Ok Y -> p ∈ Y -> q ∈ Y ->
    package_key p = package_key q -> p = q.

(** The world after a run that wrote [out]: the output directory holds
    the files of the run, everything else is unchanged. *)
Definition after_run (env : Env) (out : Output) : Env :=
  {| glob_csproj := glob_csproj env;
     ET_parse := ET_parse env;
     urlopen_read := urlopen_read env;
     ET_fromstring := ET_fromstring env;
     third_party := third_party env;
     licenses_dir := Some (licenses out);
     clear_error := clear_error env;
     write_error := write_error env;
     notice_error := notice_error env |}.

(** The string has no white space at either end. *)
Definition trimmed (s : string) : Prop := strip s = s.

(** The body of the outer loop of [read_csproj_packages]. *)
Definition manifest_step (env : Env) (packages : gset (string * string))
    (csproj : string) : result (gset (string * string)) :=
  let* tree := ET_parse env csproj in
  Ok (fold_left add_reference (findall tree PackageReference_path) packages).

(** [csproj] is the first path, in the order of the glob, on which
    [ET.parse] raises, and it raises [e]. *)
Definition first_failure (env : Env) (csproj : string) (e : exn) : Prop :=
  exists l1 l2,
    glob_csproj env = l1 ++ csproj :: l2
    /\ (forall p, p ∈ l1 -> exists tree, ET_parse env p = Ok tree)
    /\ ET_parse env csproj = Raise e.

(** Two worlds hold the same manifests, which the glob may yield in
    different orders. *)
Definition same_manifests (env env' : Env) : Prop :=
  glob_csproj env ≡ₚ glob_csproj env'
  /\ forall csproj, ET_parse env csproj = ET_parse env' csproj.

(** The names of the subdirectories of the vendored root. *)
Definition subdirectories (env : Env) : list string :=
  match third_party env with
  | Some (Dir entries) =>
      fst <$> List.filter (fun p : string * node => is_dir p.2) entries
  | _ => []
  end.

(** The files of [LICENSES_DIR] before a run. *)
Definition old_licenses (env : Env) : gmap string string :=
  default ∅ (licenses_dir env).

(** The first five lines of a license record. *)
Definition record_prefix (c : Component) : string :=
  "Component: " +:+ name c +:+ nl
  +:+ "Version: " +:+ version c +:+ nl
  +:+ "Source: " +:+ source c +:+ nl
  +:+ "License: " +:+ license_name c +:+ nl
  +:+ "License URL: " +:+ or_ (license_url c) "N/A" +:+ nl.

(** The six key/value lines that open a license record. *)
Definition header_block (c : Component) : list string :=
  [ "Component: " +:+ name c;
    "Version: " +:+ version c;
    "Source: " +:+ source c;
    "License: " +:+ license_name c;
    "License URL: " +:+ or_ (license_url c) "N/A";
    "Homepage: " +:+ or_ (homepage c) "N/A" ].

(** The lines of a text, each ended by a newline. *)
Fixpoint unlines (l : list string) : string :=
  match l with
  | [] => ""
  | x :: r => x +:+ nl +:+ unlines r
  end.

(** The fixed lines of the report before and after the rows of the
    table. *)
Definition NOTICE_HEAD : list string :=
  [ "# THIRD_PARTY_NOTICES";
    "";
    "This file is generated by `scripts/generate_third_party_notices.py`.";
    "";
    "## Included third-party components";
    "";
    "| Source | Name | Version | License | License URL |";
    "|---|---|---|---|---|" ].

Definition NOTICE_TAIL : list string :=
  [ "";
    "## Per-component license files";
    "";
    "Detailed records are written to the `LICENSES/` directory." ].

(** Python's [a <= b] on 3-tuples of strings. *)
Definition tuple3_le (a b : string * string * string) : Prop :=
  String.compare a.1.1 b.1.1 = Lt
  \/ (a.1.1 = b.1.1 /\ tuple2_le (a.1.2, a.2) (b.1.2, b.2)).

(** * Scenarios

    Concrete manifests, registry documents and trees on which the
    properties below are exercised. *)

Module Scenario.

Definition package_reference (include version : string) : Element :=
  Elem "PackageReference" {[ "Include" := include; "Version" := version ]}
       None [].

(** A manifest: [<Project><ItemGroup>refs</ItemGroup></Project>]. *)
Definition manifest (refs : list Element) : Element :=
  Elem "Project" ∅ None [Elem "ItemGroup" ∅ None refs].

(** One manifest, no network, no vendored tree, no output yet. *)
Definition offline (refs : list Element) : Env :=
  {| glob_csproj := ["src/App/App.csproj"];
     ET_parse := fun _ => Ok (manifest refs);
     urlopen_read := fun _ => None;
     ET_fromstring := fun _ => None;
     third_party := None;
     licenses_dir := None;
     clear_error := None;
     write_error := fun _ => None;
     notice_error := None |}.

Definition duplicated : Env :=
  offline [ package_reference "Serilog" "3.1.1";
            package_reference "Dapper" "2.1.35";
            package_reference " Serilog " "3.1.1" ].

Definition blank_name : Env :=
  offline [ package_reference " " "1.0" ].

Definition padded : Element := package_reference " Serilog " "3.1.1".

(** A registry document:
    [<package xmlns=..><metadata>fields</metadata></package>]. *)
Definition ns : string :=
  "{http://schemas.microsoft.com/packaging/2013/05/nuspec.xsd}".

Definition nuspec (fields : list Element) : Element :=
  Elem (ns +:+ "package") ∅ None [Elem (ns +:+ "metadata") ∅ None fields].

Definition license (type text : option string) : Element :=
  Elem (ns +:+ "license")
       (match type with Some t => {[ "type" := t ]} | None => ∅ end)
       text [].

Definition licenseUrl (url : string) : Element :=
  Elem (ns +:+ "licenseUrl") ∅ (Some url) [].

Definition projectUrl (url : string) : Element :=
  Elem (ns +:+ "projectUrl") ∅ (Some url) [].

(** One manifest and a registry that answers every request with a
    body the parser turns into [doc], or rejects when [doc] is
    [None]. *)
Definition online (refs : list Element) (doc : option Element) : Env :=
  {| glob_csproj := ["src/App/App.csproj"];
     ET_parse := fun _ => Ok (manifest refs);
     urlopen_read := fun _ => Some "<package";
     ET_fromstring := fun _ => doc;
     third_party := None;
     licenses_dir := None;
     clear_error := None;
     write_error := fun _ => None;
     notice_error := None |}.

Definition serilog : list Element := [package_reference "Serilog" "3.1.1"].


Definition expression_MIT : Element :=
  nuspec [ license (Some "expression") (Some "MIT");
           licenseUrl "https://licenses.nuget.org/MIT" ].

Definition file_LICENSE : Element :=
  nuspec [ license (Some "file") (Some "LICENSE") ].

(** [<license type="expression"/>]: the element carries the type and
    an empty value. *)
Definition expression_empty : Element :=
  nuspec [ license (Some "expression") None;
           licenseUrl "https://licenses.nuget.org/MIT" ].

Definition Expression_MIT : Element :=
  nuspec [ license (Some "Expression") (Some "MIT") ].

Definition untyped_padded : Element :=
  nuspec [ license None (Some " Apache-2.0 ");
           projectUrl "https://serilog.net" ].

(** A vendored tree: [zlib] with two candidates, [stb] without any,
    and a stray file. *)
Definition vendored : node :=
  Dir [ ("zlib", Dir [ ("README", File "zlib");
                       ("COPYING", File "copying");
                       ("LICENSE.md", File "zlib license") ]);
        ("NOTES.txt", File "notes");
        ("stb", Dir [ ("stb.h", File "code") ]) ].

(** Two packages, one with a license expression in the registry and
    one the registry does not know, and the vendored tree. *)
Definition mixed : Env :=
  {| glob_csproj := ["src/App/App.csproj"];
     ET_parse := fun _ =>
       Ok (manifest [ package_reference "Serilog" "3.1.1";
                        package_reference "Dapper" "2.1.35" ]);
     urlopen_read := fun url =>
       if String.eqb url (nuspec_url "Serilog" "3.1.1")
       then Some "<package" else None;
     ET_fromstring := fun _ => Some expression_MIT;
     third_party := Some vendored;
     licenses_dir := Some {[ "NuGet_Old_1.0.txt" := "old"; "README.md" := "kept" ]};
     clear_error := None;
     write_error := fun _ => None;
     notice_error := None |}.

Definition nuget (name version : string) : Component :=
  {| name := name; version := version; source := "NuGet";
     license_name := "UNKNOWN"; license_url := ""; homepage := "";
     notes := "" |}.

Definition quiet : Check.CompletedProcess :=
  {| Check.returncode := 0; Check.stdout := ""; Check.stderr := "" |}.

Definition silence : Check.Streams :=
  {| Check.sys_stdout := ""; Check.sys_stderr := "" |}.

(** A work tree in which the generator succeeds and [git] reports
    neither a difference nor an untracked file. *)
Definition up_to_date (cmd : list string) : Check.CompletedProcess :=
  match cmd with
  | "python3" :: _ =>
      {| Check.returncode := 0;
         Check.stdout := "Generated THIRD_PARTY_NOTICES.md and LICENSES/*.txt"
                         +:+ nl;
         Check.stderr := "" |}
  | _ => quiet
  end.

(** A work tree with a license record that was never committed. *)
Definition new_record (cmd : list string) : Check.CompletedProcess :=
  match cmd with
  | "git" :: "ls-files" :: _ =>
      {| Check.returncode := 0;
         Check.stdout := "LICENSES/NuGet_Dapper_2.1.35.txt" +:+ nl;
         Check.stderr := "" |}
  | _ => quiet
  end.

(** The generator crashes with exit status 1. *)
Definition crashed (cmd : list string) : Check.CompletedProcess :=
  match cmd with
  | "python3" :: _ =>
      {| Check.returncode := 1; Check.stdout := "";
         Check.stderr := "xml.etree.ElementTree.ParseError" +:+ nl |}
  | _ => quiet
  end.

(** A vendored component whose license file ends in blank lines. *)
Definition MIT_blank_lines : string := "MIT License" +:+ nl +:+ nl.

Definition trailing_blank_lines : Env :=
  {| glob_csproj := [];
     ET_parse := fun _ => Raise ParseError;
     urlopen_read := fun _ => None;
     ET_fromstring := fun _ => None;
     third_party := Some (Dir [("zlib", Dir [("LICENSE", File MIT_blank_lines)])]);
     licenses_dir := None;
     clear_error := None;
     write_error := fun _ => None;
     notice_error := None |}.

Definition zlib : string * node :=
  ("zlib", Dir [ ("README", File "zlib");
                 ("COPYING", File "copying");
                 ("LICENSE.md", File "zlib license") ]).

(** A vendored component in which [LICENSE] is a directory. *)
Definition license_directory : Env :=
  {| glob_csproj := [];
     ET_parse := fun _ => Raise ParseError;
     urlopen_read := fun _ => None;
     ET_fromstring := fun _ => None;
     third_party :=
       Some (Dir [("zlib", Dir [("LICENSE", Dir [("MIT.txt", File "MIT")])])]);
     licenses_dir := None;
     clear_error := None;
     write_error := fun _ => None;
     notice_error := None |}.

(** Two projects spell the same package with different letter case. *)
Definition case_variants : Env :=
  {| glob_csproj := ["src/App/App.csproj"; "src/Lib/Lib.csproj"];
     ET_parse := fun csproj =>
       if String.eqb csproj "src/App/App.csproj"
       then Ok (manifest [package_reference "Newtonsoft.Json" "13.0.3"])
       else Ok (manifest [package_reference "newtonsoft.json" "13.0.3"]);
     urlopen_read := fun _ => None;
     ET_fromstring := fun _ => None;
     third_party := None;
     licenses_dir := None;
     clear_error := None;
     write_error := fun _ => None;
     notice_error := None |}.

(** Another order in which a hash table may hold the same set. *)
Definition reversed (X : gset (string * string)) : list (string * string) :=
  reverse (elements X).

(** Two projects with one dependency each, and the same projects in the
    other order of the glob. *)
Definition two_projects_of (files : list string) : Env :=
  {| glob_csproj := files;
     ET_parse := fun csproj =>
       if String.eqb csproj "src/App/App.csproj"
       then Ok (manifest [package_reference "Serilog" "3.1.1"])
       else Ok (manifest [package_reference "Dapper" "2.1.35"]);
     urlopen_read := fun _ => None;
     ET_fromstring := fun _ => None;
     third_party := None;
     licenses_dir := None;
     clear_error := None;
     write_error := fun _ => None;
     notice_error := None |}.

Definition two_projects : Env :=
  two_projects_of ["src/App/App.csproj"; "src/Lib/Lib.csproj"].

Definition two_projects_swapped : Env :=
  two_projects_of ["src/Lib/Lib.csproj"; "src/App/App.csproj"].

(** A manifest that is not well-formed. *)
Definition broken_manifest : Env :=
  {| glob_csproj := ["src/App/App.csproj"];
     ET_parse := fun _ => Raise ParseError;
     urlopen_read := fun _ => None;
     ET_fromstring := fun _ => None;
     third_party := None;
     licenses_dir := None;
     clear_error := None;
     write_error := fun _ => None;
     notice_error := None |}.

(** The vendored tree with its entries listed in another order. *)
Definition vendored_entries : list (string * node) :=
  [ zlib; ("NOTES.txt", File "notes");
    ("stb", Dir [ ("stb.h", File "code") ]) ].

Definition vendored_reordered : list (string * node) :=
  [ ("stb", Dir [ ("stb.h", File "code") ]); ("NOTES.txt", File "notes");
    zlib ].

Definition mixed_reordered : Env :=
  {| glob_csproj := glob_csproj mixed;
     ET_parse := ET_parse mixed;
     urlopen_read := urlopen_read mixed;
     ET_fromstring := ET_fromstring mixed;
     third_party := Some (Dir vendored_reordered);
     licenses_dir := licenses_dir mixed;
     clear_error := None;
     write_error := fun _ => None;
     notice_error := None |}.

(** Names that differ in letter case, among the packages and among the
    vendored directories, and a package that is declared twice. *)
Definition letter_case : Env :=
  {| glob_csproj := ["src/App/App.csproj"];
     ET_parse := fun _ =>
       Ok (manifest [ package_reference "apple" "1.0";
                      package_reference "Zebra" "2.0";
                      package_reference "Banana" "1.0";
                      package_reference "Zebra" "2.0" ]);
     urlopen_read := fun _ => None;
     ET_fromstring := fun _ => None;
     third_party := Some (Dir [ ("yaml", Dir []); ("Zlib", Dir []) ]);
     licenses_dir := None;
     clear_error := None;
     write_error := fun _ => None;
     notice_error := None |}.

(** The glob yields a manifest, then a directory whose name ends in
    [.csproj], then a manifest that is not well-formed. *)
Definition directory_manifest : Env :=
  {| glob_csproj :=
       ["src/App/App.csproj"; "src/Old.csproj"; "src/Lib/Lib.csproj"];
     ET_parse := fun csproj =>
       if String.eqb csproj "src/App/App.csproj"
       then Ok (manifest [package_reference "Serilog" "3.1.1"])
       else if String.eqb csproj "src/Old.csproj"
       then Raise IsADirectoryError
       else Raise ParseError;
     urlopen_read := fun _ => None;
     ET_fromstring := fun _ => None;
     third_party := None;
     licenses_dir := None;
     clear_error := None;
     write_error := fun _ => None;
     notice_error := None |}.

(** The same paths, yielded in another order. *)
Definition directory_manifest_reordered : Env :=
  {| glob_csproj :=
       ["src/App/App.csproj"; "src/Lib/Lib.csproj"; "src/Old.csproj"];
     ET_parse := ET_parse directory_manifest;
     urlopen_read := fun _ => None;
     ET_fromstring := fun _ => None;
     third_party := None;
     licenses_dir := None;
     clear_error := None;
     write_error := fun _ => None;
     notice_error := None |}.

Definition serilog_component : Component :=
  {| name := "Serilog"; version := "3.1.1"; source := "NuGet";
     license_name := "SPDX: MIT";
     license_url := "https://licenses.nuget.org/MIT";
     homepage := ""; notes := "" |}.

End Scenario.

(** * Properties of the pipeline *)


(** ** Strings *)

Lemma str_app_nil_l (s : string) : "" +:+ s = s.
Proof. reflexivity. Qed.

Lemma str_app_cons (c : ascii) (a b : string) :
  String c a +:+ b = String c (a +:+ b).
Proof. reflexivity. Qed.


Lemma str_app_assoc (a b c : string) : (a +:+ b) +:+ c = a +:+ b +:+ c.
Proof. induction a as [|x a IH]; [done|]. by rewrite !str_app_cons, IH. Qed.

Lemma str_app_length (a b : string) :
  String.length (a +:+ b) = (String.length a + String.length b)%nat.
Proof. induction a as [|x a IH]; [done|]. rewrite str_app_cons. simpl. by rewrite IH. Qed.

Lemma str_app_eq_nil (a b : string) : a +:+ b = "" -> a = "" /\ b = "".
Proof. destruct a; [done|]. by rewrite str_app_cons. Qed.




(** *** Stripping *)

Lemma rstrip_cons (c : ascii) (r : string) :
  rstrip r <> "" -> rstrip (String c r) = String c (rstrip r).
Proof. simpl. by destruct (rstrip r). Qed.

Lemma rstrip_app_nonblank (a b : string) :
  rstrip b <> "" -> rstrip (a +:+ b) = a +:+ rstrip b.
Proof.
  intros Hb. induction a as [|c a IH]; [done|].
  rewrite !str_app_cons, rstrip_cons; [by rewrite IH|].
  rewrite IH. by intros [_ ?]%str_app_eq_nil.
Qed.



Lemma truthy_true (s : string) : truthy s = true <-> s <> "".
Proof. by destruct s. Qed.



Lemma strip_nonempty_truthy (s : string) : strip s <> "" -> truthy s = true.
Proof. destruct s; [done|done]. Qed.

(** ** Orders on keys and [sorted] *)


Lemma st_not_lt_trans {K} (ltb : K -> K -> bool) (a b c : K) :
  strict_total ltb ->
  ltb b a = false -> ltb c b = false -> ltb c a = false.
Proof.
  intros H Hba Hcb. destruct (ltb c a) eqn:Hca; [|done].
  destruct (ltb a b) eqn:Hab.
  - by rewrite (st_trans _ H _ _ _ Hca Hab) in Hcb.
  - assert (a = b) as -> by by apply (st_tricho _ H). congruence.
Qed.

Lemma compare_refl (s : string) : String.compare s s = Eq.
Proof.
  induction s as [|c s IH]; [done|]. simpl.
  unfold Ascii.compare. by rewrite N.compare_refl.
Qed.

Lemma compare_Gt_Lt (a b : string) :
  String.compare a b = Gt <-> String.compare b a = Lt.
Proof.
  rewrite (String.compare_antisym a b). by destruct (String.compare b a).
Qed.

Lemma compare_Lt_le (a b : string) :
  String.compare a b = Lt -> String.le a b.
Proof. unfold String.le, String.leb. by intros ->. Qed.

Lemma compare_Lt_trans (a b c : string) :
  String.compare a b = Lt -> String.compare b c = Lt ->
  String.compare a c = Lt.
Proof.
  intros Hab Hbc.
  assert (String.le a c) as Hac.
  { etrans; by apply compare_Lt_le. }
  unfold String.le, String.leb in Hac.
  destruct (String.compare a c) eqn:E; [|done|done].
  apply String.compare_eq_iff in E as ->.
  apply compare_Gt_Lt in Hbc. congruence.
Qed.

Lemma lex_strict_total {K B : Type} (fa : K -> string) (fb : K -> B)
    (ltbB : B -> B -> bool) :
  (forall x y, fa x = fa y -> fb x = fb y -> x = y) ->
  strict_total ltbB ->
  strict_total (fun a b =>
    match String.compare (fa a) (fa b) with
    | Lt => true
    | Eq => ltbB (fb a) (fb b)
    | Gt => false
    end).
Proof.
  intros Hinj HB. split.
  - intros a b. rewrite (String.compare_antisym (fa b) (fa a)).
    destruct (String.compare (fa a) (fa b)); simpl; [|done|done].
    apply (st_asym _ HB).
  - intros a b c.
    destruct (String.compare (fa a) (fa b)) eqn:Hab; [| |done].
    + apply String.compare_eq_iff in Hab as ->.
      destruct (String.compare (fa b) (fa c)); [|done|done].
      apply (st_trans _ HB).
    + intros _. destruct (String.compare (fa b) (fa c)) eqn:Hbc; [| |done].
      * apply String.compare_eq_iff in Hbc as <-. by rewrite Hab.
      * by rewrite (compare_Lt_trans _ _ _ Hab Hbc).
  - intros a b. rewrite (String.compare_antisym (fa b) (fa a)).
    destruct (String.compare (fa a) (fa b)) eqn:Hab; simpl; [|done|done].
    apply String.compare_eq_iff in Hab. intros H1 H2.
    apply Hinj; [done|]. by apply (st_tricho _ HB).
Qed.

Lemma str_ltb_strict_total : strict_total str_ltb.
Proof.
  unfold str_ltb, String.ltb. split.
  - intros a b. rewrite (String.compare_antisym b a).
    by destruct (String.compare a b).
  - intros a b c.
    destruct (String.compare a b) eqn:Hab; [done| |done].
    destruct (String.compare b c) eqn:Hbc; [done| |done].
    by rewrite (compare_Lt_trans _ _ _ Hab Hbc).
  - intros a b. rewrite (String.compare_antisym b a).
    destruct (String.compare a b) eqn:Hab; [|done|done].
    by apply String.compare_eq_iff in Hab.
Qed.

Lemma tuple2_ltb_strict_total : strict_total tuple2_ltb.
Proof.
  apply (lex_strict_total fst snd str_ltb), str_ltb_strict_total.
  intros [] []; simpl; congruence.
Qed.

Lemma tuple3_ltb_strict_total : strict_total tuple3_ltb.
Proof.
  apply (lex_strict_total (fun a : string * string * string => a.1.1)
           (fun a => (a.1.2, a.2)) tuple2_ltb), tuple2_ltb_strict_total.
  intros [[] ?] [[] ?]; simpl; congruence.
Qed.

Lemma StronglySorted_weaken {A} (R1 R2 : relation A) (l : list A) :
  (forall x y, R1 x y -> R2 x y) -> StronglySorted R1 l -> StronglySorted R2 l.
Proof.
  intros HR. induction 1 as [|x l Hl IH Hx]; constructor; [done|].
  eapply Forall_impl; [exact Hx|]. auto.
Qed.

Section SortedFacts.
Context {A K : Type} (key : A -> K) (ltb : K -> K -> bool).
Hypothesis ltb_st : strict_total ltb.

Lemma key_le_trans (x y z : A) :
  key_le key ltb x y -> key_le key ltb y z -> key_le key ltb x z.
Proof. unfold key_le. intros. by apply (st_not_lt_trans ltb _ (key y)). Qed.

Lemma insert_Permutation (x : A) (l : list A) : insert key ltb x l ≡ₚ x :: l.
Proof.
  induction l as [|y l IH]; [done|]. simpl.
  destruct (ltb (key y) (key x)); [|done].
  rewrite IH. apply Permutation_swap.
Qed.

Lemma sorted_Permutation (l : list A) : sorted key ltb l ≡ₚ l.
Proof.
  induction l as [|x l IH]; [done|]. simpl.
  by rewrite insert_Permutation, IH.
Qed.

Lemma insert_StronglySorted (x : A) (l : list A) :
  StronglySorted (key_le key ltb) l ->
  StronglySorted (key_le key ltb) (insert key ltb x l).
Proof.
  induction 1 as [|y l Hl IH Hy]; simpl.
  { repeat constructor. }
  destruct (ltb (key y) (key x)) eqn:E.
  - constructor; [done|].
    rewrite insert_Permutation. constructor; [|done].
    unfold key_le. by apply (st_asym _ ltb_st).
  - constructor; [by constructor|].
    constructor; [done|].
    eapply Forall_impl; [exact Hy|].
    intros z Hz. by apply (key_le_trans x y z).
Qed.

Lemma sorted_StronglySorted (l : list A) :
  StronglySorted (key_le key ltb) (sorted key ltb l).
Proof.
  induction l as [|x l IH]; simpl; [constructor|].
  by apply insert_StronglySorted.
Qed.

(** The result of sorting does not depend on the order of the input
    when no two of its elements have the same key. *)
Lemma sorted_Permutation_eq (l1 l2 : list A) :
  (forall x y, x ∈ l1 -> y ∈ l1 -> key x = key y -> x = y) ->
  l1 ≡ₚ l2 -> sorted key ltb l1 = sorted key ltb l2.
Proof.
  intros Hinj Hp.
  apply (StronglySorted_unique_strong (key_le key ltb));
    [|apply sorted_StronglySorted..|by rewrite !sorted_Permutation].
  intros x y Hx Hy Hxy Hyx.
  rewrite sorted_Permutation in Hx. rewrite sorted_Permutation, <-Hp in Hy.
  apply Hinj; [done..|]. by apply (st_tricho _ ltb_st).
Qed.
End SortedFacts.

(** ** The collector *)

Lemma not_ltb_le (a b : string) : str_ltb b a = false <-> String.le a b.
Proof.
  unfold str_ltb, String.ltb, String.le, String.leb.
  rewrite (String.compare_antisym b a).
  by destruct (String.compare a b).
Qed.

Lemma not_tuple2_ltb_le (a b : string * string) :
  tuple2_ltb b a = false <-> tuple2_le a b.
Proof.
  unfold tuple2_ltb, tuple2_le.
  rewrite (String.compare_antisym b.1 a.1).
  destruct (String.compare a.1 b.1) eqn:E; simpl.
  - apply String.compare_eq_iff in E. rewrite not_ltb_le. naive_solver.
  - naive_solver.
  - split; [done|]. intros [|[E' _]]; [done|].
    by rewrite E', compare_refl in E.
Qed.

Lemma elem_of_fold_add_reference (nodes : list Element)
    (X : gset (string * string)) (p : string * string) :
  p ∈ fold_left add_reference nodes X <->
  p ∈ X \/ exists node, node ∈ nodes /\ reference_pair node = Some p.
Proof.
  revert X. induction nodes as [|n nodes IH]; intros X; simpl.
  { split; [by left|]. intros [|(?&?%elem_of_nil&_)]; done. }
  rewrite IH. unfold add_reference.
  destruct (reference_pair n) as [q|] eqn:E.
  - rewrite elem_of_union, elem_of_singleton. split.
    + intros [[->|]|(node&?&?)]; [right; exists n|by left|right; exists node];
        split; try done; by constructor.
    + intros [|(node&[->|?]%elem_of_cons&?)];
        [by left; right|left; left; congruence|right; by exists node].
  - split.
    + intros [|(node&?&?)]; [by left|right; exists node].
      split; [by constructor|done].
    + intros [|(node&[->|?]%elem_of_cons&?)];
        [by left|congruence|right; by exists node].
Qed.

Lemma elem_of_collected_packages (env : Env) (Y : gset (string * string))
    (p : string * string) :
  collected_packages env = Ok Y ->
  p ∈ Y <-> exists node, declared env node /\ reference_pair node = Some p.
Proof.
  unfold collected_packages, declared.
  assert (forall files X,
    for_each
      (fun packages csproj =>
         let* tree := ET_parse env csproj in
         Ok (fold_left add_reference
               (findall tree PackageReference_path) packages)) files X
      = Ok Y ->
    p ∈ Y <->
    p ∈ X \/ exists node, (exists csproj tree,
      csproj ∈ files /\ ET_parse env csproj = Ok tree /\
      node ∈ findall tree PackageReference_path) /\
      reference_pair node = Some p) as Hloop.
  { induction files as [|f files IH]; intros X; simpl.
    - intros [= <-]. split; [by left|].
      intros [|(?&(?&?&?%elem_of_nil&_)&_)]; done.
    - destruct (ET_parse env f) as [tree|] eqn:Ef; [|done]. simpl.
      intros HY. rewrite (IH _ HY), elem_of_fold_add_reference. split.
      + intros [[|(node&?&?)]|(node&(c&t&?&?&?)&?)].
        * by left.
        * right. exists node. split; [|done]. exists f, tree.
          split; [by constructor|done].
        * right. exists node. split; [|done]. exists c, t.
          split; [by constructor|done].
      + intros [|(node&(c&t&[->|?]%elem_of_cons&?&?)&?)].
        * by left; left.
        * left; right. exists node. split; [congruence|done].
        * right. exists node. split; [|done]. by exists c, t. }
  intros HY. rewrite (Hloop _ _ HY). set_solver.
Qed.

Lemma read_csproj_packages_inv set_iter (env : Env)
    (pkgs : list (string * string)) :
  read_csproj_packages set_iter env = Ok pkgs ->
  exists Y, collected_packages env = Ok Y /\
            pkgs = sorted package_key tuple2_ltb (set_iter Y).
Proof.
  unfold read_csproj_packages.
  destruct (collected_packages env) as [Y|]; [|done]. simpl.
  intros [= <-]. by exists Y.
Qed.

Lemma elem_of_read_csproj_packages set_iter (env : Env)
    (pkgs : list (string * string)) (p : string * string) :
  enumerates set_iter ->
  read_csproj_packages set_iter env = Ok pkgs ->
  p ∈ pkgs <-> exists node, declared env node /\ reference_pair node = Some p.
Proof.
  intros Hiter (Y&HY&->)%read_csproj_packages_inv.
  rewrite <-(elem_of_collected_packages env Y p HY).
  rewrite (sorted_Permutation package_key tuple2_ltb), (Hiter Y).
  apply elem_of_elements.
Qed.

Lemma NoDup_read_csproj_packages set_iter (env : Env)
    (pkgs : list (string * string)) :
  enumerates set_iter ->
  read_csproj_packages set_iter env = Ok pkgs -> NoDup pkgs.
Proof.
  intros Hiter (Y&HY&->)%read_csproj_packages_inv.
  rewrite (sorted_Permutation package_key tuple2_ltb), (Hiter Y).
  apply NoDup_elements.
Qed.

(** C8. The collector's result has no duplicate pair: two manifest
    entries with the same (name, version) yield exactly one element; and
    the result is sorted in ascending order of the key (name lower-cased,
    version), compared as Python compares tuples of strings. *)
Theorem collector_deduplicated_and_sorted set_iter (env : Env)
    (pkgs : list (string * string)) :
  enumerates set_iter ->
  read_csproj_packages set_iter env = Ok pkgs ->
  NoDup pkgs
  /\ StronglySorted
       (fun x y => tuple2_le (lower x.1, x.2) (lower y.1, y.2)) pkgs
  /\ forall node1 node2 p,
       declared env node1 -> declared env node2 ->
       reference_pair node1 = Some p -> reference_pair node2 = Some p ->
       occurs_once p pkgs.
Proof.
  intros Hiter Hpkgs. assert (NoDup pkgs) as Hnd.
  { by eapply NoDup_read_csproj_packages. }
  split; [done|]. split.
  - destruct (read_csproj_packages_inv _ _ _ Hpkgs) as (Y&_&->).
    eapply StronglySorted_weaken;
      [|apply (sorted_StronglySorted package_key tuple2_ltb),
          tuple2_ltb_strict_total].
    intros x y Hxy. by apply not_tuple2_ltb_le in Hxy.
  - intros node1 node2 p H1 _ Hp1 _.
    assert (p ∈ pkgs) as Hin.
    { apply (elem_of_read_csproj_packages set_iter env); [done..|].
      by exists node1. }
    apply list_elem_of_split in Hin as (l1&l2&->).
    exists l1, l2. split; [done|].
    apply NoDup_app in Hnd as (_&Hdisj&[]%NoDup_cons).
    split; [|done]. intros Hl1. apply (Hdisj _ Hl1). by left.
Qed.

Lemma collector_deduplicated_and_sorted_witness :
  let pkgs := [("apple", "1.0"); ("Banana", "1.0"); ("Zebra", "2.0")] in
  read_csproj_packages elements Scenario.letter_case = Ok pkgs
  /\ NoDup pkgs
  /\ StronglySorted
       (fun x y => tuple2_le (lower x.1, x.2) (lower y.1, y.2)) pkgs
  /\ occurs_once ("Zebra", "2.0") pkgs.
Proof.
  assert (read_csproj_packages elements Scenario.letter_case
          = Ok [("apple", "1.0"); ("Banana", "1.0"); ("Zebra", "2.0")]) as E
    by (vm_compute; reflexivity).
  split; [exact E|].
  destruct (collector_deduplicated_and_sorted elements Scenario.letter_case _
              (fun X => reflexivity _) E) as (H1&H2&H3).
  do 2 (split; [done|]).
  assert (declared Scenario.letter_case
            (Scenario.package_reference "Zebra" "2.0")) as Hd.
  { exists "src/App/App.csproj",
      (Scenario.manifest
         [ Scenario.package_reference "apple" "1.0";
           Scenario.package_reference "Zebra" "2.0";
           Scenario.package_reference "Banana" "1.0";
           Scenario.package_reference "Zebra" "2.0" ]).
    split; [by constructor|]. split; [reflexivity|].
    vm_compute. constructor. by constructor. }
  apply (H3 _ _ _ Hd Hd); vm_compute; reflexivity.
Defined.

Lemma reference_pair_empty (node : Element) :
  truthy_opt (include_of node) = false \/ truthy (version_of node) = false ->
  reference_pair node = None.
Proof.
  unfold reference_pair.
  destruct (include_of node) as [inc|]; simpl; [|done].
  intros [->| ->]; [done|]. by rewrite andb_false_r.
Qed.

Lemma reference_pair_nonblank (node : Element) (inc : string) :
  include_of node = Some inc ->
  strip inc <> "" -> strip (version_of node) <> "" ->
  reference_pair node = Some (strip inc, strip (version_of node)).
Proof.
  unfold reference_pair. intros -> Hi Hv.
  by rewrite (strip_nonempty_truthy _ Hi), (strip_nonempty_truthy _ Hv).
Qed.

(** C3 fails on the code: the guard of the collector tests the name and
    the version before they are trimmed, so an entry whose name is only
    white space passes it and is collected with an empty name, where the
    claim, and the guard itself, mean to drop an entry without a name. *)
Lemma collector_keeps_blank_name :
  declared Scenario.blank_name (Scenario.package_reference " " "1.0")
  /\ strip " " = ""
  /\ read_csproj_packages elements Scenario.blank_name = Ok [("", "1.0")].
Proof.
  split; [|split; vm_compute; reflexivity].
  exists "src/App/App.csproj", (Scenario.manifest [Scenario.package_reference " " "1.0"]).
  split; [by constructor|]. split; [done|].
  vm_compute. by constructor.
Qed.

(** What the guard of the collector does ensure: an entry whose name or
    version is missing or empty contributes no pair; an entry whose name
    and version are both non-empty after trimming white space contributes
    the pair of the trimmed values, which is collected; and every
    collected pair is the pair of an entry whose untrimmed name and
    version are non-empty. *)
Theorem collector_includes_nonblank_excludes_empty set_iter (env : Env)
    (pkgs : list (string * string)) (node : Element) :
  enumerates set_iter ->
  read_csproj_packages set_iter env = Ok pkgs ->
  declared env node ->
  (truthy_opt (include_of node) = false \/ truthy (version_of node) = false ->
   reference_pair node = None)
  /\ (forall inc, include_of node = Some inc ->
        strip inc <> "" -> strip (version_of node) <> "" ->
        (strip inc, strip (version_of node)) ∈ pkgs)
  /\ (forall p, p ∈ pkgs ->
        exists n inc, declared env n /\ include_of n = Some inc /\
          inc <> "" /\ version_of n <> "" /\
          p = (strip inc, strip (version_of n))).
Proof.
  intros Hiter Hpkgs Hnode. split; [apply reference_pair_empty|]. split.
  - intros inc Hinc Hi Hv.
    apply (elem_of_read_csproj_packages set_iter env); [done..|].
    exists node. split; [done|]. by apply reference_pair_nonblank.
  - intros p (n&Hn&Hp)%(elem_of_read_csproj_packages set_iter env); [|done..].
    unfold reference_pair in Hp.
    destruct (include_of n) as [inc|] eqn:Hinc; [|done].
    destruct (truthy inc) eqn:Hti; [|done].
    destruct (truthy (version_of n)) eqn:Htv; [|done].
    simpl in Hp. injection Hp as <-.
    exists n, inc. by rewrite <-!truthy_true.
Qed.

Lemma collector_includes_nonblank_excludes_empty_witness :
  (strip " Serilog ", strip (version_of Scenario.padded))
    ∈ [("Dapper", "2.1.35"); ("Serilog", "3.1.1")].
Proof.
  assert (declared Scenario.duplicated Scenario.padded) as Hd.
  { exists "src/App/App.csproj",
      (Scenario.manifest
         [ Scenario.package_reference "Serilog" "3.1.1";
           Scenario.package_reference "Dapper" "2.1.35";
           Scenario.package_reference " Serilog " "3.1.1" ]).
    split; [by constructor|]. split; [reflexivity|].
    vm_compute. do 2 constructor. by constructor. }
  assert (read_csproj_packages elements Scenario.duplicated
          = Ok [("Dapper", "2.1.35"); ("Serilog", "3.1.1")]) as E
    by (vm_compute; reflexivity).
  destruct (collector_includes_nonblank_excludes_empty elements
              Scenario.duplicated _ Scenario.padded
              (fun X => reflexivity _) E Hd)
    as (_&Hin&_).
  apply (Hin " Serilog "); [vm_compute; reflexivity|vm_compute; discriminate..].
Defined.

(** ** The metadata fetcher *)


Lemma fetch_parsed (env : Env) (package_id version data : string)
    (root : Element) :
  urlopen_read env (nuspec_url package_id version) = Some data ->
  ET_fromstring env data = Some root ->
  fetch_nuspec_metadata env package_id version = Ok (metadata_of_document root).
Proof. intros H1 H2. unfold fetch_nuspec_metadata. by rewrite H1, H2. Qed.


Lemma txt_found (root node : Element) (path : list step) (t : string) :
  find root path = Some node -> text node = Some t ->
  txt root path = strip t.
Proof.
  intros Hf Ht. unfold txt. rewrite Hf, Ht. simpl.
  unfold or_. by destruct t.
Qed.

Lemma str_app_nonempty (a b : string) : a <> "" -> a +:+ b <> "".
Proof. by destruct a. Qed.

Lemma license_name_nonempty (root : Element) :
  meta_license_name (metadata_of_document root) <> "".
Proof.
  unfold metadata_of_document. simpl.
  repeat case_match; try by apply str_app_nonempty.
  all: unfold or_; by case_match; [apply truthy_true|].
Qed.

Lemma license_name_unknown (root : Element) :
  txt root (meta_path "license") = "" ->
  meta_license_name (metadata_of_document root) = "UNKNOWN".
Proof. intros H. unfold metadata_of_document. simpl. by rewrite H. Qed.

(** The license name of a document whose license element has a
    non-empty trimmed text, by the lower-cased type attribute. *)
Lemma license_name_typed (root lic : Element) (t : string) :
  find root (meta_path "license") = Some lic ->
  text lic = Some t -> strip t <> "" ->
  meta_license_name (metadata_of_document root) =
    let type := lower (default "" (attrib lic !! "type")) in
    if String.eqb type "expression" then "SPDX: " +:+ strip t
    else if String.eqb type "file" then "License file: " +:+ strip t
    else strip t.
Proof.
  intros Hf Ht Hne. unfold metadata_of_document. simpl.
  rewrite (txt_found _ _ _ _ Hf Ht), Hf. simpl.
  apply truthy_true in Hne. rewrite Hne. simpl.
  unfold or_. by rewrite Hne.
Qed.

(** ** Loops that may raise *)



Lemma map_result_inv {A B} (f : A -> result B) (l : list A) (ys : list B) :
  map_result f l = Ok ys ->
  forall y, y ∈ ys -> exists x, x ∈ l /\ f x = Ok y.
Proof.
  revert ys. induction l as [|x l IH]; intros ys; simpl.
  { intros [= <-] y Hy. by apply elem_of_nil in Hy. }
  destruct (f x) as [y0|] eqn:Ex; [|done]. simpl.
  destruct (map_result f l) as [ys0|]; [|done]. simpl.
  intros [= <-] y [->|Hy]%elem_of_cons.
  - exists x. split; [by left|done].
  - destruct (IH ys0 eq_refl y Hy) as (x'&?&?).
    exists x'. split; [by right|done].
Qed.

(** ** Completion of a run *)











(** C4, as stated, fails: a license element of type "expression" whose
    value is empty is stored as "UNKNOWN", not as "SPDX: " followed by the
    value; the prefix is applied under a guard on the trimmed text. *)
Lemma empty_expression_is_unknown :
  let env := Scenario.online Scenario.serilog (Some Scenario.expression_empty) in
  exists lic,
    find Scenario.expression_empty (meta_path "license") = Some lic
    /\ attrib lic !! "type" = Some "expression"
    /\ opt_or (text lic) "" = ""
    /\ exists meta,
         fetch_nuspec_metadata env "Serilog" "3.1.1" = Ok meta
         /\ meta_license_name meta = "UNKNOWN"
         /\ meta_license_name meta <> "SPDX: " +:+ "".
Proof.
  eexists. split; [vm_compute; reflexivity|].
  split; [vm_compute; reflexivity|]. split; [reflexivity|].
  eexists. split; [vm_compute; reflexivity|]. by split.
Qed.

(** C4 (amended). When the license element of the fetched document
    carries a type equal, up to letter case, to "expression" and its text,
    trimmed of white space, is a non-empty E, the stored license string is
    "SPDX: E"; when the type is "file" and the trimmed text is a non-empty
    F, it is "License file: F". *)
Theorem license_kind_is_prefixed (env : Env)
    (package_id version data : string) (root lic : Element)
    (type t prefix : string) :
  urlopen_read env (nuspec_url package_id version) = Some data ->
  ET_fromstring env data = Some root ->
  find root (meta_path "license") = Some lic ->
  attrib lic !! "type" = Some type ->
  text lic = Some t ->
  strip t <> "" ->
  (lower type = "expression" /\ prefix = "SPDX: "
   \/ lower type = "file" /\ prefix = "License file: ") ->
  exists meta,
    fetch_nuspec_metadata env package_id version = Ok meta
    /\ meta_license_name meta = prefix +:+ strip t.
Proof.
  intros Hurl Hdoc Hf Hty Ht Hne Hkind.
  exists (metadata_of_document root).
  split; [by apply (fetch_parsed env _ _ data)|].
  rewrite (license_name_typed root lic t Hf Ht Hne), Hty. simpl.
  by destruct Hkind as [[-> ->]|[-> ->]].
Qed.

Lemma license_kind_is_prefixed_witness :
  (exists meta,
     fetch_nuspec_metadata
       (Scenario.online Scenario.serilog (Some Scenario.expression_MIT))
       "Serilog" "3.1.1" = Ok meta
     /\ meta_license_name meta = "SPDX: MIT")
  /\ (exists meta,
        fetch_nuspec_metadata
          (Scenario.online Scenario.serilog (Some Scenario.file_LICENSE))
          "Serilog" "3.1.1" = Ok meta
        /\ meta_license_name meta = "License file: LICENSE").
Proof.
  split.
  - apply (license_kind_is_prefixed
             (Scenario.online Scenario.serilog (Some Scenario.expression_MIT))
             "Serilog" "3.1.1" "<package" Scenario.expression_MIT
             (Scenario.license (Some "expression") (Some "MIT"))
             "expression" "MIT" "SPDX: ");
      [reflexivity|reflexivity|vm_compute; reflexivity|vm_compute; reflexivity
      |reflexivity|vm_compute; discriminate|left; split; reflexivity].
  - apply (license_kind_is_prefixed
             (Scenario.online Scenario.serilog (Some Scenario.file_LICENSE))
             "Serilog" "3.1.1" "<package" Scenario.file_LICENSE
             (Scenario.license (Some "file") (Some "LICENSE"))
             "file" "LICENSE" "License file: ");
      [reflexivity|reflexivity|vm_compute; reflexivity|vm_compute; reflexivity
      |reflexivity|vm_compute; discriminate|right; split; reflexivity].
Defined.

(** C10, as stated, fails: the type attribute is compared after
    lower-casing, so a type "Expression", which is neither "expression"
    nor "file", still gets the prefix; the text is not stored as it
    is. *)
Lemma capitalised_type_is_prefixed :
  let env := Scenario.online Scenario.serilog (Some Scenario.Expression_MIT) in
  exists lic,
    find Scenario.Expression_MIT (meta_path "license") = Some lic
    /\ attrib lic !! "type" = Some "Expression"
    /\ "Expression" <> "expression" /\ "Expression" <> "file"
    /\ text lic = Some "MIT"
    /\ exists meta,
         fetch_nuspec_metadata env "Serilog" "3.1.1" = Ok meta
         /\ meta_license_name meta = "SPDX: MIT"
         /\ meta_license_name meta <> "MIT".
Proof.
  eexists. split; [vm_compute; reflexivity|].
  split; [vm_compute; reflexivity|]. do 2 (split; [done|]).
  split; [reflexivity|].
  eexists. split; [vm_compute; reflexivity|]. by split.
Qed.

(** C10 (amended). If the type attribute of the license element, lower-
    cased, is neither "expression" nor "file" (or the element has no type
    attribute), the fetcher stores the text of the element, trimmed of
    white space, with no prefix, when that is not empty; and if the
    trimmed text of the license element is empty, the stored license name
    is "UNKNOWN"; in both cases the license URL of the document is stored
    in the record. *)
Theorem untyped_license_is_stored_trimmed (env : Env)
    (package_id version data : string) (root : Element) :
  urlopen_read env (nuspec_url package_id version) = Some data ->
  ET_fromstring env data = Some root ->
  exists meta,
    fetch_nuspec_metadata env package_id version = Ok meta
    /\ meta_license_url meta = txt root (meta_path "licenseUrl")
    /\ (forall lic t,
          find root (meta_path "license") = Some lic ->
          text lic = Some t -> strip t <> "" ->
          lower (default "" (attrib lic !! "type")) <> "expression" ->
          lower (default "" (attrib lic !! "type")) <> "file" ->
          meta_license_name meta = strip t)
    /\ (txt root (meta_path "license") = "" ->
        meta_license_name meta = "UNKNOWN").
Proof.
  intros Hurl Hdoc. exists (metadata_of_document root).
  split; [by apply (fetch_parsed env _ _ data)|]. split; [done|].
  split; [|apply license_name_unknown].
  intros lic t Hf Ht Hne He Hfile.
  rewrite (license_name_typed root lic t Hf Ht Hne). simpl.
  apply String.eqb_neq in He, Hfile. by rewrite He, Hfile.
Qed.

Lemma untyped_license_is_stored_trimmed_witness :
  (exists meta,
     fetch_nuspec_metadata
       (Scenario.online Scenario.serilog (Some Scenario.untyped_padded))
       "Serilog" "3.1.1" = Ok meta
     /\ meta_license_name meta = "Apache-2.0")
  /\ (exists meta,
        fetch_nuspec_metadata
          (Scenario.online Scenario.serilog (Some Scenario.expression_empty))
          "Serilog" "3.1.1" = Ok meta
        /\ meta_license_name meta = "UNKNOWN"
        /\ meta_license_url meta = "https://licenses.nuget.org/MIT").
Proof.
  split.
  - destruct (untyped_license_is_stored_trimmed
                (Scenario.online Scenario.serilog (Some Scenario.untyped_padded))
                "Serilog" "3.1.1" "<package" Scenario.untyped_padded
                eq_refl eq_refl) as (meta&Hm&_&Hname&_).
    exists meta. split; [exact Hm|].
    apply (Hname (Scenario.license None (Some " Apache-2.0 ")) " Apache-2.0 ");
      [vm_compute; reflexivity|reflexivity|vm_compute; discriminate
      |vm_compute; discriminate|vm_compute; discriminate].
  - destruct (untyped_license_is_stored_trimmed
                (Scenario.online Scenario.serilog (Some Scenario.expression_empty))
                "Serilog" "3.1.1" "<package" Scenario.expression_empty
                eq_refl eq_refl) as (meta&Hm&Hurl&_&Hunk).
    exists meta. split; [exact Hm|]. split.
    + apply Hunk. vm_compute; reflexivity.
    + rewrite Hurl. vm_compute; reflexivity.
Defined.

(** ** The components of a report *)

Lemma fetch_inv (env : Env) (package_id version : string) (meta : Meta) :
  fetch_nuspec_metadata env package_id version = Ok meta ->
  (urlopen_read env (nuspec_url package_id version) = None /\ unknown_meta meta)
  \/ exists data root,
       urlopen_read env (nuspec_url package_id version) = Some data
       /\ ET_fromstring env data = Some root
       /\ meta = metadata_of_document root.
Proof.
  unfold fetch_nuspec_metadata.
  destruct (urlopen_read env _) as [data|] eqn:E.
  - destruct (ET_fromstring env data) as [root|] eqn:E'; [|done].
    intros [= <-]. right. by exists data, root.
  - intros [= <-]. left. by repeat split.
Qed.

Lemma fetch_license_name (env : Env) (package_id version : string)
    (meta : Meta) :
  fetch_nuspec_metadata env package_id version = Ok meta ->
  meta_license_name meta <> ""
  /\ (no_registry_license env package_id version ->
      meta_license_name meta = "UNKNOWN").
Proof.
  intros [[Hurl (Hn&_)]|(data&root&Hurl&Hdoc&->)]%fetch_inv.
  - by rewrite Hn.
  - split; [apply license_name_nonempty|].
    intros [Hnone|(data'&root'&Hurl'&Hdoc'&Htxt)]; [congruence|].
    apply license_name_unknown. congruence.
Qed.

Lemma components_inv set_iter (env : Env) (comps : list Component) :
  components set_iter env = Ok comps ->
  exists pkgs nuget bundled,
    read_csproj_packages set_iter env = Ok pkgs
    /\ map_result (nuget_component env) pkgs = Ok nuget
    /\ detect_bundled_components env = Ok bundled
    /\ comps = sorted component_key tuple3_ltb (nuget ++ bundled).
Proof.
  unfold components.
  destruct (read_csproj_packages set_iter env) as [pkgs|]; [|done]. simpl.
  destruct (map_result _ pkgs) as [nuget|] eqn:E; [|done]. simpl.
  destruct (detect_bundled_components env) as [bundled|]; [|done]. simpl.
  intros [= <-]. exists pkgs, nuget, bundled. by repeat split.
Qed.

Lemma nuget_component_inv (env : Env) (p : string * string) (c : Component) :
  nuget_component env p = Ok c ->
  source c = "NuGet" /\ name c = p.1 /\ version c = p.2
  /\ exists meta,
       fetch_nuspec_metadata env p.1 p.2 = Ok meta
       /\ license_name c = meta_license_name meta
       /\ license_url c = meta_license_url meta
       /\ homepage c = meta_homepage meta
       /\ notes c = meta_notes meta.
Proof.
  destruct p as [package_id version]. unfold nuget_component.
  destruct (fetch_nuspec_metadata env package_id version) as [meta|] eqn:E;
    [|done].
  simpl. intros [= <-]. do 3 (split; [done|]). exists meta. by repeat split.
Qed.

Lemma detect_bundled_components_inv (env : Env) (bundled : list Component)
    (c : Component) :
  detect_bundled_components env = Ok bundled -> c ∈ bundled ->
  exists entries item,
    third_party env = Some (Dir entries) /\ item ∈ entries
    /\ is_dir item.2 = true /\ c = bundled_component item.
Proof.
  unfold detect_bundled_components.
  destruct (third_party env) as [[?|entries]|]; [done| |].
  - intros [= <-] Hc. apply list_elem_of_In, in_map_iff in Hc as (item&<-&Hin).
    apply list_elem_of_In in Hin.
    rewrite (sorted_Permutation _ str_ltb) in Hin.
    apply list_elem_of_In, filter_In in Hin as [Hin Hdir].
    exists entries, item. by rewrite list_elem_of_In.
  - intros [= <-] Hc. by apply elem_of_nil in Hc.
Qed.

Lemma generate_inv set_iter (env : Env) (out : Output) :
  generate set_iter env = Ok out ->
  exists comps,
    components set_iter env = Ok comps
    /\ notice out = notice_text comps
    /\ for_each (write_record env) comps (cleared_licenses_dir env)
       = Ok (licenses out).
Proof.
  unfold generate, clear_licenses_dir, write_notice.
  destruct (components set_iter env) as [comps|]; [|done]. simpl.
  destruct (clear_error env); [done|]. simpl.
  destruct (for_each _ comps _) as [dir|] eqn:E; [|done]. simpl.
  destruct (notice_error env); [done|]. simpl.
  intros [= <-]. exists comps. by repeat split.
Qed.

(** C7. Every component emitted into the report has a non-empty license
    name; when no license can be determined (the registry cannot be
    reached, the document has no license text, the vendored directory has
    no license file) the field is the literal "UNKNOWN". *)
Theorem emitted_license_name_nonempty set_iter (env : Env) (out : Output) :
  generate set_iter env = Ok out ->
  exists comps,
    components set_iter env = Ok comps
    /\ notice out = notice_text comps
    /\ forall c, c ∈ comps ->
         license_name c <> ""
         /\ (source c = "NuGet"
             /\ (no_registry_license env (name c) (version c) ->
                 license_name c = "UNKNOWN")
             \/ source c = "Bundled"
                /\ exists entries item,
                     third_party env = Some (Dir entries) /\ item ∈ entries
                     /\ c = bundled_component item
                     /\ (first_existing (Some item.2) LICENSE_FILE_CANDIDATES
                           = None ->
                         license_name c = "UNKNOWN")).
Proof.
  intros (comps&Hcomps&Hnotice&_)%generate_inv.
  exists comps. do 2 (split; [done|]). intros c Hc.
  destruct (components_inv _ _ _ Hcomps) as (pkgs&nuget&bundled&_&Hn&Hb&->).
  rewrite (sorted_Permutation component_key tuple3_ltb) in Hc.
  apply elem_of_app in Hc as [Hc|Hc].
  - destruct (map_result_inv _ _ _ Hn c Hc) as (p&_&Hp).
    apply nuget_component_inv in Hp as (Hs&Hname&Hver&meta&Hm&Hl&_).
    rewrite Hname, Hver, Hl.
    destruct (fetch_license_name _ _ _ _ Hm) as [Hne Hunk].
    split; [done|]. by left.
  - destruct (detect_bundled_components_inv _ _ _ Hb Hc)
      as (entries&item&Htp&Hin&_&->).
    split.
    + unfold bundled_component, license_name.
      by destruct (first_existing (Some item.2) LICENSE_FILE_CANDIDATES).
    + right. split; [done|]. exists entries, item.
      do 3 (split; [done|]).
      unfold bundled_component, license_name. by intros ->.
Qed.

Lemma emitted_license_name_nonempty_witness :
  exists comps,
    components elements Scenario.mixed = Ok comps
    /\ forall c, c ∈ comps -> license_name c <> "".
Proof.
  destruct (generate elements Scenario.mixed) as [out|e] eqn:E;
    [|vm_compute in E; discriminate E].
  destruct (emitted_license_name_nonempty elements Scenario.mixed out E)
    as (comps&Hc&_&H).
  exists comps. split; [exact Hc|]. intros c Hin. by destruct (H c Hin).
Defined.

(** ** File names of the license records *)

Lemma sub_unsafe_runs_safe (in_run : bool) (value : string) :
  all_chars safe_char (sub_unsafe_runs in_run value) = true.
Proof.
  revert in_run. induction value as [|c r IH]; intros in_run; [done|].
  simpl. destruct (safe_char c) eqn:Hc; simpl.
  - by rewrite Hc, IH.
  - destruct in_run; [apply IH|]. simpl. apply IH.
Qed.

Lemma sub_unsafe_runs_fixed (in_run : bool) (value : string) :
  all_chars safe_char value = true -> sub_unsafe_runs in_run value = value.
Proof.
  revert in_run. induction value as [|c r IH]; intros in_run; [done|].
  simpl. intros [-> Hr]%andb_true_iff. by rewrite IH.
Qed.










(** ** The drift checker *)

(** C6. The checker exits with the generator's own non-zero exit code if
    generation fails; it exits 1 if the regenerated files differ from the
    version-controlled copies or an untracked file is present under the
    output paths; otherwise it prints the confirmation and exits 0. *)
Theorem checker_exit_code (sys_executable : string)
    (run : list string -> Check.CompletedProcess) (s : Check.Streams) :
  let gen := run (generator_cmd sys_executable) in
  let diff := run diff_cmd in
  let others := run others_cmd in
  let r := Check.main sys_executable run s in
  (Check.returncode gen <> 0%Z -> r.1 = Check.returncode gen)
  /\ (Check.returncode gen = 0%Z ->
      differs diff \/ untracked_present others -> r.1 = 1%Z)
  /\ (Check.returncode gen = 0%Z ->
      ~ differs diff -> ~ untracked_present others ->
      r.1 = 0%Z
      /\ Check.sys_stdout r.2 =
           Check.sys_stdout s +:+ Check.stdout gen
           +:+ Check.UP_TO_DATE +:+ nl).
Proof.
  unfold Check.main, differs, untracked_present, generator_cmd, diff_cmd,
    others_cmd, mbind, mret, Check.IO_bind, Check.IO_ret, Check.print,
    Check.stdout_write, Check.stderr_write.
  simpl.
  destruct (Z.eqb_spec (Check.returncode
              (run [sys_executable; "scripts/generate_third_party_notices.py"])) 0)
    as [Hg|Hg]; simpl.
  2: { split; [done|]. split; intros ?; done. }
  split; [done|].
  destruct (Z.eqb_spec (Check.returncode
              (run ["git"; "diff"; "--exit-code"; "--";
                    "THIRD_PARTY_NOTICES.md"; "LICENSES"])) 0)
    as [Hd|Hd]; simpl.
  2: { split; [done|]. intros _ Hnd _. by destruct Hnd. }
  destruct (Z.eqb_spec (Check.returncode
              (run ["git"; "ls-files"; "--others"; "--exclude-standard";
                    "THIRD_PARTY_NOTICES.md"; "LICENSES"])) 0)
    as [Ho|Ho]; simpl.
  2: { split; [intros _ [?|[? _]]; done|]. intros _ _ _.
       by rewrite str_app_assoc. }
  destruct (truthy (strip (Check.stdout
              (run ["git"; "ls-files"; "--others"; "--exclude-standard";
                    "THIRD_PARTY_NOTICES.md"; "LICENSES"])))) eqn:Ht; simpl.
  - split; [done|]. intros _ _ Hnu. destruct Hnu.
    split; [done|]. by apply truthy_true.
  - split.
    + intros _ [?|[_ Hne]]; [done|]. by apply truthy_true in Hne; congruence.
    + intros _ _ _. by rewrite str_app_assoc.
Qed.

Lemma checker_exit_code_witness :
  (Check.main "python3" Scenario.crashed Scenario.silence).1 = 1%Z
  /\ (Check.main "python3" Scenario.new_record Scenario.silence).1 = 1%Z
  /\ (Check.main "python3" Scenario.up_to_date Scenario.silence).1 = 0%Z.
Proof.
  split; [|split].
  - destruct (checker_exit_code "python3" Scenario.crashed Scenario.silence)
      as (H&_&_).
    apply H. vm_compute. discriminate.
  - destruct (checker_exit_code "python3" Scenario.new_record Scenario.silence)
      as (_&H&_).
    apply H; [reflexivity|]. right. split; [reflexivity|].
    vm_compute. discriminate.
  - destruct (checker_exit_code "python3" Scenario.up_to_date Scenario.silence)
      as (_&_&H).
    apply H; [reflexivity| |].
    + intros Hd. by apply Hd.
    + intros [_ Hu]. by apply Hu.
Defined.

(** ** The scanner of bundled components *)

Lemma first_existing_Some (d : option node) (candidates : list string)
    (n : string) (x : node) :
  first_existing d candidates = Some (n, x) -> first_match d candidates n x.
Proof.
  induction candidates as [|m r IH]; simpl; [done|].
  destruct (resolve d m) as [y|] eqn:E.
  - intros [= <- <-]. exists 0%nat. split; [done|]. split; [done|]. lia.
  - intros (i&Hi&Hx&Hbefore)%IH. exists (S i). split; [done|]. split; [done|].
    intros [|j] m' Hj; simpl; [by intros [= <-]|].
    apply Hbefore. lia.
Qed.

Lemma first_existing_None (d : option node) (candidates : list string) :
  first_existing d candidates = None ->
  forall n, n ∈ candidates -> resolve d n = None.
Proof.
  induction candidates as [|m r IH]; simpl.
  { intros _ n Hn. by apply elem_of_nil in Hn. }
  destruct (resolve d m) as [y|] eqn:E; [done|].
  intros H n [->|Hn]%elem_of_cons; [done|by apply IH].
Qed.

Lemma join_snoc (sep : string) (l : list string) (x : string) :
  l <> [] -> join sep (l ++ [x]) = join sep l +:+ sep +:+ x.
Proof.
  induction l as [|y [|z l] IH]; [done|done|]. intros _.
  change (join sep ((y :: z :: l) ++ [x]))
    with (y +:+ sep +:+ join sep ((z :: l) ++ [x])).
  rewrite IH by done.
  change (join sep (y :: z :: l)) with (y +:+ sep +:+ join sep (z :: l)).
  by rewrite !str_app_assoc.
Qed.

Lemma starts_with_app (sub post : string) :
  starts_with (sub +:+ post) sub = true.
Proof.
  induction sub as [|c r IH]; [done|]. rewrite str_app_cons. simpl.
  by rewrite Ascii.eqb_refl, IH.
Qed.

Lemma contains_app (pre sub post : string) :
  contains (pre +:+ sub +:+ post) sub = true.
Proof.
  induction pre as [|c r IH].
  - rewrite str_app_nil_l. destruct (sub +:+ post) eqn:E; simpl;
      rewrite <-E, starts_with_app; done.
  - rewrite str_app_cons. simpl. rewrite IH. apply orb_true_r.
Qed.

Lemma elem_of_detect_bundled_components (env : Env)
    (entries : list (string * node)) (item : string * node) :
  third_party env = Some (Dir entries) ->
  item ∈ entries -> is_dir item.2 = true ->
  exists bundled,
    detect_bundled_components env = Ok bundled
    /\ bundled_component item ∈ bundled.
Proof.
  intros Htp Hin Hdir. unfold detect_bundled_components. rewrite Htp.
  eexists. split; [done|].
  apply list_elem_of_In, in_map, list_elem_of_In.
  rewrite (sorted_Permutation _ str_ltb).
  apply list_elem_of_In, filter_In. by rewrite <-list_elem_of_In.
Qed.

Lemma write_bundled_license (env : Env) (entries : list (string * node))
    (item : string * node) (n contents : string) :
  third_party env = Some (Dir entries) ->
  child entries item.1 = Some item.2 ->
  first_existing (Some item.2) LICENSE_FILE_CANDIDATES
    = Some (n, File contents) ->
  let c := bundled_component item in
  write_license_file env c
  = Ok (file_name_of c, rstrip (record_header c +:+ contents) +:+ nl).
Proof.
  intros Htp Hchild Hfirst c. unfold write_license_file.
  change (source c) with "Bundled". change (name c) with item.1.
  rewrite Htp. unfold resolve at 1. rewrite Hchild.
  change (String.eqb "Bundled" "Bundled") with true. cbv iota.
  rewrite Hfirst. unfold read_text, bind. do 2 f_equal.
  unfold record_header. rewrite join_snoc, str_app_assoc; [done|].
  by destruct (record_lines c).
Qed.

(** C5, as stated, fails: the record of a bundled component is stripped
    of trailing white space before it is written, so a license file that
    ends in blank lines is not embedded as it is. *)
Lemma trailing_blank_lines_not_embedded :
  let env := Scenario.trailing_blank_lines in
  let item := ("zlib", Dir [("LICENSE", File Scenario.MIT_blank_lines)]) in
  first_existing (Some item.2) LICENSE_FILE_CANDIDATES
    = Some ("LICENSE", File Scenario.MIT_blank_lines)
  /\ exists record,
       write_license_file env (bundled_component item)
         = Ok ("Bundled_zlib_bundled.txt", record)
       /\ ~ exists pre post,
              record = pre +:+ Scenario.MIT_blank_lines +:+ post.
Proof.
  split; [reflexivity|]. eexists. split; [vm_compute; reflexivity|].
  intros (pre&post&E).
  apply (f_equal (fun s => contains s Scenario.MIT_blank_lines)) in E.
  rewrite contains_app in E. vm_compute in E. discriminate E.
Qed.

(** A candidate that exists as a directory is selected all the same, and
    reading it stops the run. *)
Lemma license_directory_raises :
  generate elements Scenario.license_directory = Raise IsADirectoryError.
Proof. vm_compute. reflexivity. Qed.

(** C5 (amended). For each immediate subdirectory of the vendored-code
    root the scanner emits one component; it checks the candidates in
    exactly the order LICENSE, LICENSE.txt, LICENSE.md, COPYING,
    COPYING.txt, NOTICE, NOTICE.txt and selects the first that exists; if
    none exists the license name is "UNKNOWN" with the note that no file
    was detected; otherwise the license name is the placeholder that
    points to the bundled files and, the selected candidate being a file,
    the license record of the component is the header followed by the
    contents of that file, stripped of trailing white space and ended by
    one newline. The entries of the vendored root have distinct names:
    the path of the component leads to its directory. *)
Theorem bundled_license_detection (env : Env)
    (entries : list (string * node)) (item : string * node) :
  third_party env = Some (Dir entries) ->
  item ∈ entries -> is_dir item.2 = true ->
  child entries item.1 = Some item.2 ->
  let c := bundled_component item in
  (exists bundled, detect_bundled_components env = Ok bundled /\ c ∈ bundled)
  /\ LICENSE_FILE_CANDIDATES
     = ["LICENSE"; "LICENSE.txt"; "LICENSE.md"; "COPYING"; "COPYING.txt";
        "NOTICE"; "NOTICE.txt"]
  /\ match first_existing (Some item.2) LICENSE_FILE_CANDIDATES with
     | None =>
         (forall n, n ∈ LICENSE_FILE_CANDIDATES ->
            resolve (Some item.2) n = None)
         /\ license_name c = "UNKNOWN"
         /\ notes c = "No bundled license file detected."
     | Some (n, x) =>
         first_match (Some item.2) LICENSE_FILE_CANDIDATES n x
         /\ license_name c = "See bundled files"
         /\ notes c = "License file copied from bundled component."
         /\ forall contents, x = File contents ->
              write_license_file env c
              = Ok (file_name_of c,
                    rstrip (record_header c +:+ contents) +:+ nl)
              /\ (rstrip contents <> "" ->
                  write_license_file env c
                  = Ok (file_name_of c,
                        record_header c +:+ rstrip contents +:+ nl))
     end.
Proof.
  intros Htp Hin Hdir Hchild c.
  split; [by apply (elem_of_detect_bundled_components env entries)|].
  split; [reflexivity|].
  destruct (first_existing (Some item.2) LICENSE_FILE_CANDIDATES)
    as [[n x]|] eqn:Hfirst.
  - split; [by apply first_existing_Some|].
    subst c. unfold bundled_component, license_name, notes. rewrite Hfirst.
    do 2 (split; [done|]). intros contents ->.
    pose proof (write_bundled_license env entries item n contents
                  Htp Hchild Hfirst) as Hw.
    unfold bundled_component in Hw. rewrite Hfirst in Hw.
    split; [exact Hw|]. intros Hne. rewrite Hw.
    by rewrite rstrip_app_nonblank, str_app_assoc.
  - split; [by apply first_existing_None|].
    subst c. unfold bundled_component, license_name, notes. by rewrite Hfirst.
Qed.

Lemma bundled_license_detection_witness :
  let c := bundled_component Scenario.zlib in
  license_name c = "See bundled files"
  /\ first_match (Some Scenario.zlib.2) LICENSE_FILE_CANDIDATES
       "LICENSE.md" (File "zlib license")
  /\ exists header,
       write_license_file Scenario.mixed c
       = Ok ("Bundled_zlib_bundled.txt", header +:+ "zlib license" +:+ nl).
Proof.
  pose proof (bundled_license_detection Scenario.mixed
                [ Scenario.zlib; ("NOTES.txt", File "notes");
                  ("stb", Dir [ ("stb.h", File "code") ]) ]
                Scenario.zlib eq_refl ltac:(by left) eq_refl eq_refl)
    as (_&_&H).
  change (first_existing (Some Scenario.zlib.2) LICENSE_FILE_CANDIDATES)
    with (Some ("LICENSE.md", File "zlib license")) in H.
  destruct H as (Hfirst&Hname&_&Hrec).
  split; [exact Hname|]. split; [exact Hfirst|].
  destruct (Hrec "zlib license" eq_refl) as [_ Hw].
  eexists. apply Hw. vm_compute. discriminate.
Defined.

(** ** Determinism of a run *)

Lemma read_csproj_packages_order_independent iter1 iter2 (env : Env) :
  enumerates iter1 -> enumerates iter2 -> keys_distinct env ->
  read_csproj_packages iter1 env = read_csproj_packages iter2 env.
Proof.
  intros H1 H2 Hkeys. unfold read_csproj_packages.
  destruct (collected_packages env) as [Y|] eqn:HY; [|done]. simpl.
  f_equal. apply sorted_Permutation_eq.
  - apply tuple2_ltb_strict_total.
  - intros p q Hp Hq. apply (Hkeys Y); [done|..].
    + by rewrite (H1 Y), elem_of_elements in Hp.
    + by rewrite (H1 Y), elem_of_elements in Hq.
  - by rewrite (H1 Y), (H2 Y).
Qed.

(** The output of the generator does not depend on the order in which
    the set of packages is iterated, when no two collected pairs have
    the same sort key. *)
Lemma generate_order_independent iter1 iter2 (env : Env) :
  enumerates iter1 -> enumerates iter2 -> keys_distinct env ->
  generate iter1 env = generate iter2 env.
Proof.
  intros H1 H2 Hkeys. unfold generate, components.
  by rewrite (read_csproj_packages_order_independent iter1 iter2).
Qed.

Lemma drop_app_length (a t : string) :
  Py.drop (String.length a) (a +:+ t) = t.
Proof. induction a as [|c a IH]; [by destruct t|]. by rewrite str_app_cons. Qed.

Lemma endswith_app (a t : string) : endswith (a +:+ t) t = true.
Proof.
  unfold endswith, slice_from_end. rewrite str_app_length.
  replace (String.length a + String.length t - String.length t)%nat
    with (String.length a) by lia.
  rewrite drop_app_length, String.eqb_refl. simpl.
  apply Nat.leb_le. lia.
Qed.

Lemma file_name_of_txt (c : Component) : endswith (file_name_of c) ".txt" = true.
Proof.
  unfold file_name_of. rewrite <-!str_app_assoc. apply endswith_app.
Qed.

Lemma write_license_file_name (env : Env) (c : Component)
    (file_name contents : string) :
  write_license_file env c = Ok (file_name, contents) ->
  file_name = file_name_of c.
Proof.
  unfold write_license_file.
  destruct (if String.eqb (source c) "Bundled" then _ else _); [|done].
  simpl. by intros [= <- _].
Qed.

(** The files a run writes are [*.txt] files: what the next run clears. *)
Lemma written_files_cleared (env : Env) (comps : list Component)
    (dir0 dir : gmap string string) :
  for_each (write_record env) comps dir0 = Ok dir ->
  filter (fun kv : string * string => endswith kv.1 ".txt" = false) dir
  = filter (fun kv : string * string => endswith kv.1 ".txt" = false) dir0.
Proof.
  revert dir0. induction comps as [|c comps IH]; intros dir0; simpl.
  { by intros [= <-]. }
  unfold write_record at 1, write_text.
  destruct (write_license_file env c) as [[file_name contents]|] eqn:E;
    [|done].
  simpl. destruct (write_error env file_name); [done|].
  simpl. intros Hrest. rewrite (IH _ Hrest).
  apply map_filter_insert_not. intros y. simpl.
  by rewrite (write_license_file_name _ _ _ _ E), file_name_of_txt.
Qed.

Lemma cleared_licenses_dir_cleared (env : Env) :
  filter (fun kv : string * string => endswith kv.1 ".txt" = false)
         (cleared_licenses_dir env)
  = cleared_licenses_dir env.
Proof.
  unfold cleared_licenses_dir. destruct (licenses_dir env) as [files|].
  - apply map_filter_id. by intros i x [_ ?]%map_lookup_filter_Some.
  - apply map_filter_empty.
Qed.

(** A second run on the output of the first, with the same inputs and
    the same iteration order, writes the same files. *)
Lemma generate_twice set_iter (env : Env) (out : Output) :
  generate set_iter env = Ok out ->
  generate set_iter (after_run env out) = Ok out.
Proof.
  intros Hgen. destruct (generate_inv _ _ _ Hgen) as (comps&Hc&Hn&Hdir).
  assert (cleared_licenses_dir (after_run env out) = cleared_licenses_dir env)
    as Hclear.
  { unfold cleared_licenses_dir at 1. simpl.
    by rewrite (written_files_cleared _ _ _ _ Hdir),
      cleared_licenses_dir_cleared. }
  change (generate set_iter (after_run env out))
    with (let* components := components set_iter env in
          let* dir :=
            match clear_error env with
            | Some e => Raise e
            | None => Ok (cleared_licenses_dir (after_run env out))
            end in
          let* dir := for_each (write_record env) components dir in
          let* notice := write_notice env (notice_text components) in
          Ok {| notice := notice; licenses := dir |}).
  rewrite Hclear. exact Hgen.
Qed.

(** Two runs on unchanged inputs, the second on the output of the first,
    write the same files whatever the orders in which the two processes
    iterate the set, when no two collected pairs have the same sort
    key. *)
Corollary generate_deterministic iter1 iter2 (env : Env) (out : Output) :
  enumerates iter1 -> enumerates iter2 -> keys_distinct env ->
  generate iter1 env = Ok out ->
  generate iter2 (after_run env out) = Ok out.
Proof.
  intros H1 H2 Hkeys Hgen.
  rewrite (generate_order_independent iter2 iter1); [|done..].
  by apply generate_twice.
Qed.

(** The report lists the components in ascending order of (source kind,
    name lower-cased, version). *)
Lemma components_sorted set_iter (env : Env) (comps : list Component) :
  components set_iter env = Ok comps ->
  StronglySorted (key_le component_key tuple3_ltb) comps.
Proof.
  intros (pkgs&nuget&bundled&_&_&_&->)%components_inv.
  apply sorted_StronglySorted, tuple3_ltb_strict_total.
Qed.

(** C9 fails on the code: the collector sorts the set of packages by
    (name lower-cased, version), a key that does not separate two
    spellings of one package, and the sort is stable; the order of the
    two rows in the report is then the order in which the set was
    iterated, which differs from run to run. *)
Theorem report_depends_on_set_order :
  enumerates elements /\ enumerates Scenario.reversed
  /\ read_csproj_packages elements Scenario.case_variants
     = Ok [("newtonsoft.json", "13.0.3"); ("Newtonsoft.Json", "13.0.3")]
  /\ read_csproj_packages Scenario.reversed Scenario.case_variants
     = Ok [("Newtonsoft.Json", "13.0.3"); ("newtonsoft.json", "13.0.3")]
  /\ exists out1 out2,
       generate elements Scenario.case_variants = Ok out1
       /\ generate Scenario.reversed Scenario.case_variants = Ok out2
       /\ notice out1 <> notice out2.
Proof.
  split; [by intros X|].
  split; [intros X; apply reverse_Permutation|].
  split; [vm_compute; reflexivity|]. split; [vm_compute; reflexivity|].
  destruct (generate elements Scenario.case_variants) as [out1|] eqn:E1;
    [|vm_compute in E1; discriminate E1].
  destruct (generate Scenario.reversed Scenario.case_variants)
    as [out2|] eqn:E2; [|vm_compute in E2; discriminate E2].
  exists out1, out2. do 2 (split; [done|]).
  vm_compute in E1, E2. injection E1 as <-. injection E2 as <-.
  simpl. discriminate.
Qed.

(** * Further properties of the scripts *)

(** ** Sanitised file names *)

Lemma sub_unsafe_runs_length (in_run : bool) (value : string) :
  (String.length (sub_unsafe_runs in_run value) <= String.length value)%nat.
Proof.
  revert in_run. induction value as [|c r IH]; intros in_run; [done|].
  simpl. destruct (safe_char c); simpl.
  - specialize (IH false). lia.
  - destruct in_run; simpl; specialize (IH true); lia.
Qed.

(** X1. [safe_file_name] is idempotent, never lengthens its argument, and
    leaves exactly the strings of safe characters unchanged. *)
Theorem safe_file_name_idempotent (value : string) :
  safe_file_name (safe_file_name value) = safe_file_name value
  /\ (String.length (safe_file_name value) <= String.length value)%nat
  /\ (safe_file_name value = value <-> all_chars safe_char value = true).
Proof.
  unfold safe_file_name. split; [|split].
  - apply sub_unsafe_runs_fixed, sub_unsafe_runs_safe.
  - apply sub_unsafe_runs_length.
  - split; [|apply sub_unsafe_runs_fixed].
    intros <-. apply sub_unsafe_runs_safe.
Qed.

(** ** Trimmed and lower-cased strings *)

Lemma lstrip_head (s : string) :
  lstrip s = "" \/ exists c r, lstrip s = String c r /\ isspace c = false.
Proof.
  induction s as [|c s IH]; [by left|]. simpl.
  destruct (isspace c) eqn:E; [done|]. right. by exists c, s.
Qed.

Lemma rstrip_head (c : ascii) (r : string) :
  isspace c = false -> exists r', rstrip (String c r) = String c r'.
Proof. intros Hc. simpl. rewrite Hc. destruct (rstrip r); by eexists. Qed.

Lemma rstrip_rstrip (s : string) : rstrip (rstrip s) = rstrip s.
Proof.
  induction s as [|c s IH]; [done|]. simpl.
  destruct (rstrip s) as [|d r] eqn:E.
  - destruct (isspace c) eqn:Hc; [done|]. simpl. by rewrite Hc.
  - by rewrite rstrip_cons; rewrite IH.
Qed.

Lemma strip_trimmed (s : string) : trimmed (strip s).
Proof.
  unfold trimmed, strip.
  destruct (lstrip_head s) as [->|(c&r&->&Hc)]; [done|].
  destruct (rstrip_head c r Hc) as [r' E].
  assert (lstrip (rstrip (String c r)) = rstrip (String c r)) as ->.
  { rewrite E. simpl. by rewrite Hc. }
  apply rstrip_rstrip.
Qed.

Lemma trimmed_prefixed (p s : string) :
  lstrip p = p -> p <> "" -> trimmed s -> s <> "" -> trimmed (p +:+ s).
Proof.
  unfold trimmed, strip. intros Hp Hne Hs Hsne.
  assert (lstrip (p +:+ s) = p +:+ s) as ->.
  { destruct p as [|c p]; [done|]. rewrite str_app_cons. simpl in *.
    destruct (isspace c); [|done].
    apply (f_equal String.length) in Hp. simpl in Hp.
    assert (forall t, (String.length (lstrip t) <= String.length t)%nat) as Hle.
    { induction t as [|d t IH]; [done|]. simpl.
      destruct (isspace d); simpl; lia. }
    specialize (Hle p). lia. }
  assert (rstrip s = s) as Hr.
  { destruct (lstrip_head s) as [E|(c&r&E&Hc)].
    - rewrite E in Hs. by rewrite <-Hs in Hsne.
    - rewrite E in Hs. rewrite <-Hs at 2.
      rewrite <-Hs, rstrip_rstrip. done. }
  rewrite rstrip_app_nonblank; by rewrite Hr.
Qed.

Lemma lower_char_idemp (c : ascii) : lower_char (lower_char c) = lower_char c.
Proof. by destruct c as [[] [] [] [] [] [] [] []]. Qed.

Lemma lower_idemp (s : string) : lower (lower s) = lower s.
Proof.
  induction s as [|c s IH]; [done|]. simpl. by rewrite lower_char_idemp, IH.
Qed.

(** ** The fetcher and the collector on letter case and white space *)

(** X2. The registry is asked for the lower-cased name and version: two
    spellings of a package that differ in letter case get the same
    metadata. *)
Theorem fetch_ignores_letter_case (env : Env)
    (package_id version package_id' version' : string) :
  lower package_id = lower package_id' -> lower version = lower version' ->
  fetch_nuspec_metadata env package_id version
  = fetch_nuspec_metadata env package_id' version'
  /\ fetch_nuspec_metadata env (lower package_id) (lower version)
     = fetch_nuspec_metadata env package_id version.
Proof.
  intros Hid Hv. unfold fetch_nuspec_metadata, nuspec_url.
  by rewrite !lower_idemp, Hid, Hv.
Qed.

Lemma fetch_ignores_letter_case_witness :
  fetch_nuspec_metadata Scenario.mixed "SERILOG" "3.1.1"
  = fetch_nuspec_metadata Scenario.mixed "Serilog" "3.1.1".
Proof.
  apply (fetch_ignores_letter_case Scenario.mixed
           "SERILOG" "3.1.1" "Serilog" "3.1.1");
    vm_compute; reflexivity.
Defined.

Lemma txt_trimmed (root : Element) (path : list step) :
  trimmed (txt root path).
Proof.
  unfold txt. destruct (find root path) as [node|]; [|done].
  destruct (truthy_opt (text node)); [apply strip_trimmed|done].
Qed.

Lemma metadata_trimmed (root : Element) :
  let meta := metadata_of_document root in
  trimmed (meta_license_name meta) /\ trimmed (meta_license_url meta)
  /\ trimmed (meta_homepage meta) /\ trimmed (meta_notes meta).
Proof.
  unfold metadata_of_document. simpl.
  split; [|by repeat split; try apply txt_trimmed].
  pose proof (txt_trimmed root (meta_path "license")) as Ht.
  destruct (truthy (txt root (meta_path "license"))) eqn:E.
  - apply truthy_true in E.
    assert (trimmed (or_ (txt root (meta_path "license")) "UNKNOWN")) as Hor.
    { unfold or_. by destruct (truthy _). }
    simpl. repeat case_match; try done; by apply trimmed_prefixed.
  - unfold or_. by rewrite E.
Qed.

Lemma fetch_trimmed (env : Env) (package_id version : string) (meta : Meta) :
  fetch_nuspec_metadata env package_id version = Ok meta ->
  trimmed (meta_license_name meta) /\ trimmed (meta_license_url meta)
  /\ trimmed (meta_homepage meta) /\ trimmed (meta_notes meta).
Proof.
  unfold fetch_nuspec_metadata.
  destruct (urlopen_read env _) as [data|].
  - destruct (ET_fromstring env data) as [root|]; [|done].
    intros [= <-]. apply metadata_trimmed.
  - intros [= <-]. by repeat split.
Qed.

Lemma reference_pair_trimmed (node : Element) (p : string * string) :
  reference_pair node = Some p -> trimmed p.1 /\ trimmed p.2.
Proof.
  unfold reference_pair. destruct (include_of node) as [inc|]; [|done].
  destruct (truthy inc && truthy (version_of node)); [|done].
  intros [= <-]. split; apply strip_trimmed.
Qed.

(** X3. The cells of a registry package in the report carry no white space
    at either end: name and version are trimmed by the collector, and
    license name, license URL and homepage by the fetcher. *)
Theorem nuget_fields_trimmed set_iter (env : Env) (comps : list Component)
    (c : Component) :
  enumerates set_iter ->
  components set_iter env = Ok comps ->
  c ∈ comps -> source c = "NuGet" ->
  trimmed (name c) /\ trimmed (version c) /\ trimmed (license_name c)
  /\ trimmed (license_url c) /\ trimmed (homepage c).
Proof.
  intros Hiter (pkgs&nuget&bundled&Hp&Hn&Hb&->)%components_inv Hc Hsrc.
  rewrite (sorted_Permutation component_key tuple3_ltb) in Hc.
  apply elem_of_app in Hc as [Hc|Hc].
  - destruct (map_result_inv _ _ _ Hn c Hc) as (p&Hin&Hcomp).
    apply nuget_component_inv in Hcomp
      as (_&Hname&Hver&meta&Hm&Hl&Hu&Hh&_).
    apply (elem_of_read_csproj_packages set_iter env pkgs p Hiter Hp) in Hin
      as (node&_&Hpair).
    destruct (reference_pair_trimmed _ _ Hpair) as [H1 H2].
    destruct (fetch_trimmed _ _ _ _ Hm) as (H3&H4&H5&_).
    rewrite Hname, Hver, Hl, Hu, Hh. by repeat split.
  - destruct (detect_bundled_components_inv _ _ _ Hb Hc) as (?&?&_&_&_&->).
    done.
Qed.

Lemma nuget_fields_trimmed_witness :
  exists comps c,
    components elements Scenario.mixed = Ok comps /\ c ∈ comps
    /\ name c = "Serilog" /\ trimmed (license_name c).
Proof.
  destruct (components elements Scenario.mixed) as [comps|e] eqn:E;
    [|vm_compute in E; discriminate E].
  set (c := {| name := "Serilog"; version := "3.1.1"; source := "NuGet";
               license_name := "SPDX: MIT";
               license_url := "https://licenses.nuget.org/MIT";
               homepage := ""; notes := "" |}).
  assert (c ∈ comps) as Hin.
  { vm_compute in E. injection E as <-. subst c.
    do 3 apply list_elem_of_further. apply list_elem_of_here. }
  exists comps, c. split; [reflexivity|]. split; [exact Hin|].
  split; [reflexivity|].
  by destruct (nuget_fields_trimmed elements Scenario.mixed comps c
                 (fun X => reflexivity _) E Hin eq_refl) as (_&_&H&_).
Defined.

(** ** Manifests that do not parse, and the order of the glob *)

Lemma manifest_loop_Ok (env : Env) (files : list string)
    (X : gset (string * string)) :
  (exists Y, for_each (manifest_step env) files X = Ok Y) <->
  forall csproj, csproj ∈ files -> exists tree, ET_parse env csproj = Ok tree.
Proof.
  revert X. induction files as [|f files IH]; intros X; simpl.
  { split; [|by eexists]. intros _ csproj Hin. by apply elem_of_nil in Hin. }
  unfold manifest_step at 1.
  destruct (ET_parse env f) as [tree|e] eqn:Ef; simpl.
  - rewrite IH. split.
    + intros H csproj [->|Hin]%elem_of_cons; [by eexists|by apply H].
    + intros H csproj Hin. apply H. by right.
  - split; [by intros [Y [=]]|].
    intros H. destruct (H f) as [tree Ht]; [by left|]. congruence.
Qed.

Lemma manifest_loop_Raise (env : Env) (files : list string)
    (X : gset (string * string)) (e : exn) :
  for_each (manifest_step env) files X = Raise e <->
  exists csproj l1 l2,
    files = l1 ++ csproj :: l2
    /\ (forall p, p ∈ l1 -> exists tree, ET_parse env p = Ok tree)
    /\ ET_parse env csproj = Raise e.
Proof.
  revert X. induction files as [|f files IH]; intros X; simpl.
  { split; [done|]. by intros (?&[|??]&?&[=]&_). }
  unfold manifest_step at 1.
  destruct (ET_parse env f) as [tree|e0] eqn:Ef; simpl.
  - rewrite IH. split.
    + intros (csproj&l1&l2&->&Hl1&Hbad). exists csproj, (f :: l1), l2.
      split; [done|]. split; [|done].
      intros p [->|Hin]%elem_of_cons; [by eexists|by apply Hl1].
    + intros (csproj&[|f' l1]&l2&Hfiles&Hl1&Hbad); simpl in Hfiles.
      * injection Hfiles as -> _. congruence.
      * injection Hfiles as -> ->. exists csproj, l1, l2.
        split; [done|]. split; [|done].
        intros p Hin. apply Hl1. by right.
  - split.
    + intros [= <-]. exists f, [], files. split; [done|]. split; [|done].
      intros p Hin. by apply elem_of_nil in Hin.
    + intros (csproj&[|f' l1]&l2&Hfiles&Hl1&Hbad); simpl in Hfiles.
      * injection Hfiles as -> _. congruence.
      * injection Hfiles as -> _.
        destruct (Hl1 f') as [tree Ht]; [by left|]. congruence.
Qed.

(** X4. The collector fails closed: it returns exactly when [ET.parse]
    returns on every path the glob yields; otherwise it raises the
    exception [ET.parse] raises on the first path, in the order of the
    glob, on which it raises, and the run raises the same exception. *)
Theorem collector_fails_closed set_iter (env : Env) :
  ((exists pkgs, read_csproj_packages set_iter env = Ok pkgs) <->
   manifests_parse env)
  /\ forall e,
       (read_csproj_packages set_iter env = Raise e <->
        exists csproj, first_failure env csproj e)
       /\ (read_csproj_packages set_iter env = Raise e ->
           generate set_iter env = Raise e).
Proof.
  unfold read_csproj_packages.
  change (collected_packages env)
    with (for_each (manifest_step env) (glob_csproj env) ∅).
  split; [|intros e; split; [|]].
  - rewrite <-(manifest_loop_Ok env (glob_csproj env) ∅).
    destruct (for_each _ _ _) as [Y|e]; simpl.
    + split; by eexists.
    + split; by intros [? [=]].
  - unfold first_failure.
    rewrite <-(manifest_loop_Raise env (glob_csproj env) ∅ e).
    destruct (for_each _ _ _) as [Y|e']; simpl; [done|].
    split; by intros [= <-].
  - intros He. unfold generate, components, read_csproj_packages.
    change (collected_packages env)
      with (for_each (manifest_step env) (glob_csproj env) ∅).
    by rewrite He.
Qed.

Lemma same_manifests_collected (env env' : Env) (Y : gset (string * string)) :
  same_manifests env env' ->
  collected_packages env = Ok Y -> collected_packages env' = Ok Y.
Proof.
  intros [Hperm Hparse] E.
  destruct (proj2 (manifest_loop_Ok env' (glob_csproj env') ∅)) as [Y' E'].
  { intros csproj Hin. rewrite <-Hperm in Hin. rewrite <-Hparse.
    apply (proj1 (manifest_loop_Ok env (glob_csproj env) ∅)); [|done].
    by exists Y. }
  change (collected_packages env' = Ok Y') in E'. rewrite E'.
  f_equal. apply set_eq. intros p.
  rewrite (elem_of_collected_packages env Y p E),
    (elem_of_collected_packages env' Y' p E').
  unfold declared.
  split; intros (node&(csproj&tree&Hin&Ht&Hn)&Hp); exists node;
    (split; [|done]); exists csproj, tree.
  - by rewrite Hperm, Hparse.
  - by rewrite <-Hperm, <-Hparse.
Qed.

(** X5. The collector's result does not depend on the order in which the
    glob yields the manifests: when it returns for one order it returns
    the same set for the other, and the same sorted list when no two
    pairs have the same sort key; when it raises for one order it raises
    for the other. *)
Theorem collector_ignores_glob_order iter1 iter2 (env env' : Env) :
  same_manifests env env' ->
  (forall Y, collected_packages env = Ok Y -> collected_packages env' = Ok Y)
  /\ ((exists e, collected_packages env = Raise e) ->
      exists e', collected_packages env' = Raise e')
  /\ (enumerates iter1 -> enumerates iter2 -> keys_distinct env ->
      forall pkgs,
        read_csproj_packages iter1 env = Ok pkgs ->
        read_csproj_packages iter2 env' = Ok pkgs).
Proof.
  intros Hsame.
  split; [intros Y; by apply same_manifests_collected|]. split.
  - intros [e He].
    destruct (collected_packages env') as [Y'|e'] eqn:E'; [|by exists e'].
    assert (same_manifests env' env) as Hsym.
    { destruct Hsame as [Hperm Hparse]. by split. }
    rewrite (same_manifests_collected env' env Y' Hsym E') in He. done.
  - intros H1 H2 Hkeys pkgs.
    rewrite (read_csproj_packages_order_independent iter1 iter2 env);
      [|done..].
    unfold read_csproj_packages.
    destruct (collected_packages env) as [Y|] eqn:E; [|done].
    by rewrite (same_manifests_collected env env' Y Hsame E).
Qed.

(** Which exception the collector raises does depend on the order of
    the glob: it is the one of the first path that fails. *)
Lemma collector_error_depends_on_glob_order :
  same_manifests Scenario.directory_manifest
    Scenario.directory_manifest_reordered
  /\ collected_packages Scenario.directory_manifest = Raise IsADirectoryError
  /\ collected_packages Scenario.directory_manifest_reordered
     = Raise ParseError.
Proof.
  split; [|split; vm_compute; reflexivity].
  split; [|reflexivity]. apply perm_skip, Permutation_swap.
Qed.

(** ** The scanner on the vendored root *)

Lemma bool_filter_Permutation {A} (f : A -> bool) (l1 l2 : list A) :
  l1 ≡ₚ l2 -> List.filter f l1 ≡ₚ List.filter f l2.
Proof.
  induction 1 as [|x l1 l2 _ IH|x y l|l1 l2 l3 _ IH1 _ IH2]; simpl.
  - done.
  - destruct (f x); by rewrite IH.
  - destruct (f x), (f y); try done. apply Permutation_swap.
  - by etrans.
Qed.


(** X7. The scanner does not depend on the order in which the vendored root
    lists its entries, when no two subdirectories have the same
    lower-cased name. *)
Theorem bundled_ignores_iterdir_order (env env' : Env)
    (entries entries' : list (string * node)) :
  third_party env = Some (Dir entries) ->
  third_party env' = Some (Dir entries') ->
  entries ≡ₚ entries' ->
  (forall x y, x ∈ entries -> y ∈ entries ->
     is_dir x.2 = true -> is_dir y.2 = true ->
     lower x.1 = lower y.1 -> x = y) ->
  detect_bundled_components env = detect_bundled_components env'.
Proof.
  intros Htp Htp' Hperm Hinj. unfold detect_bundled_components.
  rewrite Htp, Htp'. do 2 f_equal.
  apply sorted_Permutation_eq.
  - apply str_ltb_strict_total.
  - intros x y [Hx Hdx]%list_elem_of_In%filter_In
      [Hy Hdy]%list_elem_of_In%filter_In.
    apply Hinj; by rewrite ?list_elem_of_In.
  - by apply bool_filter_Permutation.
Qed.

(** ** The components of a report, as a whole *)

Lemma nuget_identities (env : Env) (pkgs : list (string * string))
    (nuget : list Component) :
  map_result (nuget_component env) pkgs = Ok nuget ->
  identity <$> nuget
  = (fun p : string * string => ("NuGet", p.1, p.2)) <$> pkgs.
Proof.
  revert nuget. induction pkgs as [|p pkgs IH]; intros nuget; simpl.
  { by intros [= <-]. }
  destruct (nuget_component env p) as [c|] eqn:Ec; [|done]. simpl.
  destruct (map_result _ pkgs) as [cs|] eqn:Ecs; [|done]. simpl.
  intros [= <-]. rewrite fmap_cons, (IH cs eq_refl). f_equal.
  apply nuget_component_inv in Ec as (Hs&Hn&Hv&_).
  unfold identity. by rewrite Hs, Hn, Hv.
Qed.

Lemma bundled_identities (env : Env) (bundled : list Component) :
  detect_bundled_components env = Ok bundled ->
  identity <$> bundled
  ≡ₚ (fun d : string => ("Bundled", d, "bundled")) <$> subdirectories env.
Proof.
  unfold detect_bundled_components, subdirectories.
  destruct (third_party env) as [[contents|entries]|]; [done| |].
  - intros [= <-].
    change (map bundled_component ?l) with (bundled_component <$> l).
    rewrite <-!list_fmap_compose.
    by rewrite (sorted_Permutation _ str_ltb).
  - by intros [= <-].
Qed.

(** X8. The report holds exactly one component for each collected package,
    with source "NuGet", and one for each subdirectory of the vendored
    root, with source "Bundled" and version "bundled"; when the
    subdirectories have distinct names no two components of the report
    have the same identity. *)
Theorem components_identities set_iter (env : Env) (comps : list Component) :
  enumerates set_iter ->
  components set_iter env = Ok comps ->
  exists pkgs,
    read_csproj_packages set_iter env = Ok pkgs
    /\ identity <$> comps
       ≡ₚ ((fun p : string * string => ("NuGet", p.1, p.2)) <$> pkgs)
          ++ ((fun d : string => ("Bundled", d, "bundled"))
                <$> subdirectories env)
    /\ (NoDup (subdirectories env) -> NoDup (identity <$> comps)).
Proof.
  intros Hiter (pkgs&nuget&bundled&Hp&Hn&Hb&->)%components_inv.
  exists pkgs. split; [done|].
  assert (identity <$> sorted component_key tuple3_ltb (nuget ++ bundled)
          ≡ₚ ((fun p : string * string => ("NuGet", p.1, p.2)) <$> pkgs)
             ++ ((fun d : string => ("Bundled", d, "bundled"))
                   <$> subdirectories env)) as Hperm.
  { rewrite (sorted_Permutation component_key tuple3_ltb), fmap_app.
    by rewrite (nuget_identities _ _ _ Hn), (bundled_identities _ _ Hb). }
  split; [done|]. intros Hnd. rewrite Hperm.
  apply NoDup_app. split; [|split].
  - apply NoDup_fmap_2; [|by eapply NoDup_read_csproj_packages].
    intros [] []; simpl; congruence.
  - intros x (p&->&_)%list_elem_of_fmap (d&[=]&_)%list_elem_of_fmap.
  - apply NoDup_fmap_2; [|done]. intros ??; congruence.
Qed.

(** ** The output directory after a run *)

Lemma write_record_inv (env : Env) (dir dir' : gmap string string)
    (c : Component) :
  write_record env dir c = Ok dir' ->
  exists contents,
    write_license_file env c = Ok (file_name_of c, contents)
    /\ dir' = <[file_name_of c := contents]> dir.
Proof.
  unfold write_record, write_text.
  destruct (write_license_file env c) as [[f contents]|] eqn:E; [|done].
  simpl. destruct (write_error env f); [done|]. intros [= <-].
  rewrite (write_license_file_name _ _ _ _ E) in *. by exists contents.
Qed.

Lemma record_loop_other (env : Env) (comps : list Component)
    (dir0 dir : gmap string string) (f : string) :
  for_each (write_record env) comps dir0 = Ok dir ->
  endswith f ".txt" = false -> dir !! f = dir0 !! f.
Proof.
  revert dir0. induction comps as [|c comps IH]; intros dir0; simpl.
  { by intros [= <-]. }
  destruct (write_record env dir0 c) as [dir1|] eqn:E; [|done]. simpl.
  intros Hrest Hf. rewrite (IH _ Hrest Hf).
  apply write_record_inv in E as (contents&_&->).
  apply lookup_insert_ne. intros Heq.
  by rewrite <-Heq, file_name_of_txt in Hf.
Qed.

Lemma record_loop_provenance (env : Env) (comps : list Component)
    (dir0 dir : gmap string string) (f contents : string) :
  for_each (write_record env) comps dir0 = Ok dir ->
  dir !! f = Some contents ->
  dir0 !! f = Some contents
  \/ exists c, c ∈ comps /\ write_license_file env c = Ok (f, contents).
Proof.
  revert dir0. induction comps as [|c comps IH]; intros dir0; simpl.
  { intros [= <-]. by left. }
  destruct (write_record env dir0 c) as [dir1|] eqn:E; [|done]. simpl.
  intros Hrest Hf. destruct (IH _ Hrest Hf) as [H1|(c'&Hin&Hw)].
  - apply write_record_inv in E as (contents'&Hw&->).
    apply lookup_insert_Some in H1 as [[<- <-]|[_ H0]]; [|by left].
    right. exists c. split; [by left|done].
  - right. exists c'. split; [by right|done].
Qed.

Lemma record_loop_keeps (env : Env) (comps : list Component)
    (dir0 dir : gmap string string) (f contents : string) :
  for_each (write_record env) comps dir0 = Ok dir ->
  (forall c, c ∈ comps -> file_name_of c <> f) ->
  dir !! f = dir0 !! f.
Proof.
  revert dir0. induction comps as [|c comps IH]; intros dir0; simpl.
  { by intros [= <-]. }
  destruct (write_record env dir0 c) as [dir1|] eqn:E; [|done]. simpl.
  intros Hrest Hne. rewrite (IH _ Hrest).
  - apply write_record_inv in E as (contents'&_&->).
    apply lookup_insert_ne, Hne. by left.
  - intros c' Hin. apply Hne. by right.
Qed.

Lemma record_loop_last (env : Env) (l1 l2 : list Component) (c : Component)
    (dir0 dir : gmap string string) :
  for_each (write_record env) (l1 ++ c :: l2) dir0 = Ok dir ->
  (forall c', c' ∈ l2 -> file_name_of c' <> file_name_of c) ->
  exists contents,
    write_license_file env c = Ok (file_name_of c, contents)
    /\ dir !! file_name_of c = Some contents.
Proof.
  revert dir0. induction l1 as [|c1 l1 IH]; intros dir0; simpl.
  - destruct (write_record env dir0 c) as [dir1|] eqn:E; [|done]. simpl.
    intros Hrest Hne.
    apply write_record_inv in E as (contents&Hw&->).
    exists contents. split; [done|].
    rewrite (record_loop_keeps env l2 _ dir (file_name_of c) contents Hrest Hne).
    apply lookup_insert_eq.
  - destruct (write_record env dir0 c1) as [dir1|]; [|done]. simpl.
    apply IH.
Qed.

Lemma last_with_name (f : string) (comps : list Component) :
  f ∈ file_name_of <$> comps ->
  exists l1 c' l2,
    comps = l1 ++ c' :: l2 /\ file_name_of c' = f
    /\ forall c'', c'' ∈ l2 -> file_name_of c'' <> file_name_of c'.
Proof.
  induction comps as [|x comps IH]; [by intros ?%elem_of_nil|].
  destruct (decide (f ∈ file_name_of <$> comps)) as [Hin|Hno].
  - intros _. destruct (IH Hin) as (l1&c'&l2&->&Hf&Hlast).
    by exists (x :: l1), c', l2.
  - rewrite fmap_cons. intros [->|Hin]%elem_of_cons; [|done].
    exists [], x, comps. split; [done|]. split; [done|].
    intros c'' Hin Heq. apply Hno, list_elem_of_fmap. by exists c''.
Qed.

(** X10. A run leaves in the output directory the files it found there whose
    names do not end in ".txt", unchanged, and no other ".txt" file than
    the records it wrote: stale records are gone. *)
Theorem output_directory_regenerated set_iter (env : Env) (out : Output)
    (f : string) :
  generate set_iter env = Ok out ->
  (endswith f ".txt" = false -> licenses out !! f = old_licenses env !! f)
  /\ (endswith f ".txt" = true ->
      forall contents, licenses out !! f = Some contents ->
        exists comps c,
          components set_iter env = Ok comps /\ c ∈ comps
          /\ write_license_file env c = Ok (f, contents)).
Proof.
  intros (comps&Hc&_&Hdir)%generate_inv.
  change (for_each (write_record env) comps (cleared_licenses_dir env)
          = Ok (licenses out)) in Hdir.
  split.
  - intros Hf. rewrite (record_loop_other _ _ _ _ _ Hdir Hf).
    unfold cleared_licenses_dir, old_licenses.
    destruct (licenses_dir env) as [files|]; [|done]. simpl.
    rewrite map_lookup_filter. destruct (files !! f); [|done]. simpl.
    by rewrite option_guard_True.
  - intros Hf contents Hlook.
    destruct (record_loop_provenance _ _ _ _ _ _ Hdir Hlook)
      as [Hold|(c&Hin&Hw)]; [|by exists comps, c].
    unfold cleared_licenses_dir in Hold.
    destruct (licenses_dir env) as [files|]; [|done].
    apply map_lookup_filter_Some in Hold as [_ Hno]. simpl in Hno. congruence.
Qed.

(** X11. After a run every component of the report has its file in the output
    directory, and the file holds the record of the last component, in
    the order of the report, that has this file name. *)
Theorem last_record_wins set_iter (env : Env) (out : Output)
    (comps : list Component) :
  generate set_iter env = Ok out ->
  components set_iter env = Ok comps ->
  (forall c, c ∈ comps -> is_Some (licenses out !! file_name_of c))
  /\ forall l1 c l2,
       comps = l1 ++ c :: l2 ->
       (forall c', c' ∈ l2 -> file_name_of c' <> file_name_of c) ->
       exists contents,
         write_license_file env c = Ok (file_name_of c, contents)
         /\ licenses out !! file_name_of c = Some contents.
Proof.
  intros (comps'&Hc&_&Hdir)%generate_inv Hcomps.
  assert (comps' = comps) as -> by congruence.
  change (for_each (write_record env) comps (cleared_licenses_dir env)
          = Ok (licenses out)) in Hdir.
  assert (forall l1 c l2,
    comps = l1 ++ c :: l2 ->
    (forall c', c' ∈ l2 -> file_name_of c' <> file_name_of c) ->
    exists contents,
      write_license_file env c = Ok (file_name_of c, contents)
      /\ licenses out !! file_name_of c = Some contents) as Hlast.
  { intros l1 c l2 -> Hne. by eapply record_loop_last. }
  split; [|done].
  intros c Hin.
  destruct (last_with_name (file_name_of c) comps)
    as (l1&c'&l2&E&Hf&Hne); [apply list_elem_of_fmap; by exists c|].
  destruct (Hlast l1 c' l2 E Hne) as (contents&_&Hlook).
  rewrite <-Hf. by eexists.
Qed.

(** ** Errors of the record writer *)

Lemma for_each_Ok_inv {A S} (body : S -> A -> result S) (l : list A)
    (s s' : S) (x : A) :
  for_each body l s = Ok s' -> x ∈ l ->
  exists s1 s2, body s1 x = Ok s2.
Proof.
  revert s. induction l as [|y l IH]; intros s; simpl.
  { intros _ Hx. by apply elem_of_nil in Hx. }
  destruct (body s y) as [s1|] eqn:E; [|done]. simpl.
  intros Hrest [->|Hx]%elem_of_cons; [by exists s, s1|by eapply IH].
Qed.

(** X12. A vendored component whose selected license candidate is a
    directory stops the run: the candidate is chosen by existence and
    read as a file, which raises, and neither the records nor the report
    of the run are completed. *)
Theorem license_directory_stops_run set_iter (env : Env)
    (comps : list Component) (c : Component) (n : string)
    (entries : list (string * node)) :
  components set_iter env = Ok comps -> c ∈ comps ->
  source c = "Bundled" ->
  first_existing (resolve (third_party env) (name c)) LICENSE_FILE_CANDIDATES
    = Some (n, Dir entries) ->
  write_license_file env c = Raise IsADirectoryError
  /\ exists e, generate set_iter env = Raise e.
Proof.
  intros Hcomps Hc Hs Hf.
  assert (write_license_file env c = Raise IsADirectoryError) as Hw.
  { unfold write_license_file. by rewrite Hs, Hf. }
  split; [done|].
  destruct (generate set_iter env) as [out|e] eqn:Hgen; [|by exists e].
  apply generate_inv in Hgen as (comps'&Hcomps'&_&Hdir).
  assert (comps' = comps) as -> by congruence.
  destruct (for_each_Ok_inv _ _ _ _ c Hdir Hc) as (d1&d2&Hstep).
  unfold write_record in Hstep. by rewrite Hw in Hstep.
Qed.

(** ** The text of a license record *)

Lemma str_app_nil_r (s : string) : s +:+ "" = s.
Proof. induction s as [|c s IH]; [done|]. by rewrite str_app_cons, IH. Qed.

Lemma rstrip_app_blank (a b : string) :
  rstrip b = "" -> rstrip (a +:+ b) = rstrip a.
Proof.
  intros Hb. induction a as [|c a IH]; [done|].
  rewrite str_app_cons. simpl. by rewrite IH.
Qed.

Lemma rstrip_keeps_prefix (p s : string) :
  rstrip p = p -> exists tail, rstrip (p +:+ s) = p +:+ tail.
Proof.
  intros Hp. destruct (decide (rstrip s = "")) as [E|E].
  - exists "". by rewrite rstrip_app_blank, str_app_nil_r.
  - exists (rstrip s). by apply rstrip_app_nonblank.
Qed.

Lemma record_lines_header (c : Component) :
  exists rest, rest <> [] /\ record_lines c = header_block c ++ rest.
Proof.
  unfold record_lines. destruct (truthy (notes c)).
  - by exists [""; "Notes: " +:+ notes c].
  - by exists [""].
Qed.

Lemma join_header_block (c : Component) (rest : list string) :
  rest <> [] ->
  exists s,
    join nl (header_block c ++ rest)
    = record_prefix c +:+ "Homepage:" +:+ s.
Proof.
  intros Hrest. destruct rest as [|r rest]; [done|].
  exists (" " +:+ or_ (homepage c) "N/A" +:+ nl +:+ join nl (r :: rest)).
  unfold header_block, record_prefix.
  change (join nl (?l ++ r :: rest))
    with (("Component: " +:+ name c) +:+ nl
          +:+ ("Version: " +:+ version c) +:+ nl
          +:+ ("Source: " +:+ source c) +:+ nl
          +:+ ("License: " +:+ license_name c) +:+ nl
          +:+ ("License URL: " +:+ or_ (license_url c) "N/A") +:+ nl
          +:+ ("Homepage: " +:+ or_ (homepage c) "N/A") +:+ nl
          +:+ join nl (r :: rest)).
  by rewrite !str_app_assoc.
Qed.

Lemma rstrip_record (c : Component) (rest : list string) :
  rest <> [] ->
  exists tail,
    rstrip (join nl (header_block c ++ rest))
    = record_prefix c +:+ "Homepage:" +:+ tail
    /\ rstrip ("Homepage:" +:+ tail) = "Homepage:" +:+ tail.
Proof.
  intros Hrest. destruct (join_header_block c rest Hrest) as [s ->].
  destruct (rstrip_keeps_prefix "Homepage:" s eq_refl) as [tail Ht].
  exists tail. split; [|by rewrite <-Ht, rstrip_rstrip].
  rewrite rstrip_app_nonblank; [by rewrite Ht|].
  rewrite Ht. by apply str_app_nonempty.
Qed.

(** X13. The record of a component is written under the file name derived
    from its identity; it opens with the five lines Component, Version,
    Source, License and License URL as they are, followed by the
    Homepage line, and it ends with one newline that no white space
    precedes. *)
Theorem license_record_format (env : Env) (c : Component)
    (file_name record : string) :
  write_license_file env c = Ok (file_name, record) ->
  file_name = file_name_of c
  /\ exists tail,
       record = record_prefix c +:+ "Homepage:" +:+ tail +:+ nl
       /\ rstrip ("Homepage:" +:+ tail) = "Homepage:" +:+ tail.
Proof.
  intros Hw. split; [by eapply write_license_file_name|].
  destruct (record_lines_header c) as (rest&Hrest&Hlines).
  assert (exists rest', rest' <> [] /\
            record = rstrip (join nl (header_block c ++ rest')) +:+ nl)
    as (rest'&Hrest'&->).
  { unfold write_license_file in Hw. rewrite Hlines in Hw.
    destruct (String.eqb (source c) "Bundled").
    - destruct (first_existing _ _) as [[n [contents|entries]]|];
        simpl in Hw; [| done |].
      + injection Hw as _ <-.
        exists (rest ++ [""; "----- Bundled license text -----"; ""]
                ++ [contents]).
        split; [by destruct rest|]. by rewrite <-!(assoc_L (++)).
      + injection Hw as _ <-. by exists rest.
    - simpl in Hw. injection Hw as _ <-. by exists rest. }
  destruct (rstrip_record c rest' Hrest') as (tail&->&Ht).
  exists tail. split; [|done]. by rewrite !str_app_assoc.
Qed.

(** ** The text of the report *)

Lemma join_app (sep : string) (a b : list string) :
  a <> [] -> b <> [] ->
  join sep (a ++ b) = join sep a +:+ sep +:+ join sep b.
Proof.
  intros Ha Hb. induction a as [|x [|y a] IH]; [done| |].
  - destruct b; [done|]. done.
  - change (join sep ((x :: y :: a) ++ b))
      with (x +:+ sep +:+ join sep ((y :: a) ++ b)).
    rewrite IH by done.
    change (join sep (x :: y :: a)) with (x +:+ sep +:+ join sep (y :: a)).
    by rewrite !str_app_assoc.
Qed.

Lemma join_unlines (l : list string) :
  l <> [] -> join nl l +:+ nl = unlines l.
Proof.
  induction l as [|x [|y l] IH]; [done| |]; intros _.
  - simpl. by rewrite str_app_nil_r.
  - change (join nl (x :: y :: l)) with (x +:+ nl +:+ join nl (y :: l)).
    rewrite !str_app_assoc, IH by done. done.
Qed.

Lemma unlines_app (a b : list string) :
  unlines (a ++ b) = unlines a +:+ unlines b.
Proof.
  induction a as [|x a IH]; [done|]. simpl.
  by rewrite IH, !str_app_assoc.
Qed.

(** X14. The report is its fixed head, one table row for each component in
    the order of the list, and its fixed tail, every line ended by a
    newline: stripping the text removes nothing, whatever the fields of
    the components hold. *)
Theorem notice_text_format (comps : list Component) :
  notice_text comps
  = unlines NOTICE_HEAD +:+ unlines (table_row <$> comps)
    +:+ unlines NOTICE_TAIL.
Proof.
  unfold notice_text.
  change (map table_row comps) with (table_row <$> comps).
  change ([ "# THIRD_PARTY_NOTICES"; ""; _; ""; _; ""; _; _ ])
    with NOTICE_HEAD.
  change ([ ""; "## Per-component license files"; ""; _ ]) with NOTICE_TAIL.
  rewrite (assoc_L (++)), join_app; [|by destruct comps|done].
  rewrite <-str_app_assoc,
    (rstrip_app_nonblank _ (join nl NOTICE_TAIL)) by done.
  change (rstrip (join nl NOTICE_TAIL)) with (join nl NOTICE_TAIL).
  rewrite !str_app_assoc, (join_unlines NOTICE_TAIL) by done.
  rewrite <-str_app_assoc, join_unlines by (by destruct comps).
  by rewrite unlines_app.
Qed.

(** ** What the checker prints *)

(** X15. The checker forwards the output of the generator first. When
    generation fails it prints nothing else; on a difference it prints
    the out-of-date error and then the standard output and standard error
    of the comparison; on untracked files it prints the error and the
    trimmed list of files. *)
Theorem checker_reports (sys_executable : string)
    (run : list string -> Check.CompletedProcess) (s : Check.Streams) :
  let gen := run (generator_cmd sys_executable) in
  let diff := run diff_cmd in
  let others := run others_cmd in
  let r := Check.main sys_executable run s in
  (Check.returncode gen <> 0%Z ->
   r.2 = {| Check.sys_stdout := Check.sys_stdout s +:+ Check.stdout gen;
            Check.sys_stderr := Check.sys_stderr s +:+ Check.stderr gen |})
  /\ (Check.returncode gen = 0%Z -> differs diff ->
      r.2 = {| Check.sys_stdout :=
                 Check.sys_stdout s +:+ Check.stdout gen
                 +:+ Check.OUT_OF_DATE +:+ nl +:+ Check.stdout diff;
               Check.sys_stderr :=
                 Check.sys_stderr s +:+ Check.stderr gen
                 +:+ Check.stderr diff |})
  /\ (Check.returncode gen = 0%Z -> ~ differs diff ->
      untracked_present others ->
      r.2 = {| Check.sys_stdout :=
                 Check.sys_stdout s +:+ Check.stdout gen
                 +:+ Check.UNTRACKED +:+ nl
                 +:+ strip (Check.stdout others) +:+ nl;
               Check.sys_stderr :=
                 Check.sys_stderr s +:+ Check.stderr gen |}).
Proof.
  unfold Check.main, differs, untracked_present, generator_cmd, diff_cmd,
    others_cmd, mbind, mret, Check.IO_bind, Check.IO_ret, Check.print,
    Check.stdout_write, Check.stderr_write.
  simpl.
  destruct (Z.eqb_spec (Check.returncode
              (run [sys_executable; "scripts/generate_third_party_notices.py"])) 0)
    as [Hg|Hg]; simpl.
  2: { split; [done|]. split; intros ?; done. }
  split; [done|].
  destruct (Z.eqb_spec (Check.returncode
              (run ["git"; "diff"; "--exit-code"; "--";
                    "THIRD_PARTY_NOTICES.md"; "LICENSES"])) 0)
    as [Hd|Hd]; simpl.
  2: { split; [|done]. intros _ _. by rewrite !str_app_assoc. }
  split; [done|]. intros _ _ [Ho Hne].
  rewrite Ho. simpl. apply truthy_true in Hne. rewrite Hne. simpl.
  by rewrite !str_app_assoc.
Qed.

(** ** Order and repeatability of the report *)

Lemma not_tuple3_ltb_le (a b : string * string * string) :
  tuple3_ltb b a = false <-> tuple3_le a b.
Proof.
  unfold tuple3_ltb, tuple3_le.
  rewrite (String.compare_antisym b.1.1 a.1.1).
  destruct (String.compare a.1.1 b.1.1) eqn:E; simpl.
  - apply String.compare_eq_iff in E.
    rewrite (not_tuple2_ltb_le (a.1.2, a.2) (b.1.2, b.2)). naive_solver.
  - naive_solver.
  - split; [done|]. intros [|[E' _]]; [done|].
    by rewrite E', compare_refl in E.
Qed.

Lemma components_sources set_iter (env : Env) (comps : list Component)
    (c : Component) :
  components set_iter env = Ok comps -> c ∈ comps -> emitted_source c.
Proof.
  intros (pkgs&nuget&bundled&_&Hn&Hb&->)%components_inv Hc.
  rewrite (sorted_Permutation component_key tuple3_ltb) in Hc.
  apply elem_of_app in Hc as [Hc|Hc].
  - destruct (map_result_inv _ _ _ Hn c Hc) as (p&_&Hp).
    apply nuget_component_inv in Hp as (Hs&_). by left.
  - destruct (detect_bundled_components_inv _ _ _ Hb Hc) as (?&?&_&_&_&->).
    by right.
Qed.

(** X9. The rows of the report are in ascending order of the triple
    (source kind, name lower-cased, version), compared as Python compares
    tuples of strings: every bundled component stands before every
    registry package, and within a source kind the names ascend without
    regard to letter case. *)
Theorem report_order set_iter (env : Env) (comps : list Component) :
  components set_iter env = Ok comps ->
  StronglySorted
    (fun x y =>
       tuple3_le (source x, lower (name x), version x)
                 (source y, lower (name y), version y)) comps
  /\ forall l1 c l2,
       comps = l1 ++ c :: l2 ->
       (source c = "Bundled" ->
        Forall (fun c' => source c' = "Bundled") l1)
       /\ Forall (fun c' => source c' = source c ->
                            String.le (lower (name c')) (lower (name c))) l1.
Proof.
  intros Hcomps.
  assert (StronglySorted
            (fun x y =>
               tuple3_le (source x, lower (name x), version x)
                         (source y, lower (name y), version y)) comps)
    as Hsorted.
  { destruct (components_inv _ _ _ Hcomps) as (pkgs&nuget&bundled&_&_&_&->).
    eapply StronglySorted_weaken;
      [|apply (sorted_StronglySorted component_key tuple3_ltb),
          tuple3_ltb_strict_total].
    intros x y Hxy. by apply not_tuple3_ltb_le in Hxy. }
  split; [done|]. intros l1 c l2 ->.
  assert (forall c', c' ∈ l1 ->
            tuple3_le (source c', lower (name c'), version c')
                      (source c, lower (name c), version c)) as Hle.
  { intros c' Hin.
    apply (StronglySorted_app_1_elem_of
             (fun x y =>
                tuple3_le (source x, lower (name x), version x)
                          (source y, lower (name y), version y))
             l1 (c :: l2) c' c); [done..|by left]. }
  split.
  - intros Hsrc. apply Forall_forall. intros c' Hin.
    specialize (Hle c' Hin).
    destruct (components_sources set_iter env _ c' Hcomps) as [Hn|Hb];
      [apply elem_of_app; by left| |done].
    unfold tuple3_le in Hle. simpl in Hle.
    rewrite Hn, Hsrc in Hle. by destruct Hle as [[=]|[[=] _]].
  - apply Forall_forall. intros c' Hin Hsrc.
    specialize (Hle c' Hin).
    unfold tuple3_le, tuple2_le in Hle. simpl in Hle.
    destruct Hle as [Hlt|[_ [Hlt|[-> _]]]].
    + by rewrite Hsrc, compare_refl in Hlt.
    + by apply compare_Lt_le.
    + unfold String.le, String.leb. by rewrite compare_refl.
Qed.

(** X16. Two runs on unchanged inputs, the second on the output directory the
    first has left, write the same report and the same records, whatever
    the orders in which the two processes iterate the set of packages,
    when no two collected pairs have the same (name lower-cased, version);
    the records of the first run are deleted and written again. *)
Theorem runs_agree iter1 iter2 (env : Env) (out : Output) :
  enumerates iter1 -> enumerates iter2 -> keys_distinct env ->
  generate iter1 env = Ok out ->
  generate iter2 env = Ok out
  /\ generate iter2 (after_run env out) = Ok out.
Proof.
  intros H1 H2 Hkeys Hgen.
  assert (generate iter2 env = Ok out) as Hgen2.
  { by rewrite (generate_order_independent iter2 iter1). }
  split; [done|]. by apply generate_twice.
Qed.

(** ** The properties on the scenarios *)

Lemma collector_fails_closed_witness :
  first_failure Scenario.directory_manifest "src/Old.csproj" IsADirectoryError
  /\ read_csproj_packages elements Scenario.directory_manifest
     = Raise IsADirectoryError
  /\ generate elements Scenario.directory_manifest = Raise IsADirectoryError.
Proof.
  assert (first_failure Scenario.directory_manifest "src/Old.csproj"
            IsADirectoryError) as Hfirst.
  { exists ["src/App/App.csproj"], ["src/Lib/Lib.csproj"].
    split; [reflexivity|]. split; [|reflexivity].
    intros p ->%list_elem_of_singleton. by eexists. }
  split; [exact Hfirst|].
  destruct (collector_fails_closed elements Scenario.directory_manifest)
    as [_ H].
  destruct (H IsADirectoryError) as [[_ Hraise] Hgen].
  assert (read_csproj_packages elements Scenario.directory_manifest
          = Raise IsADirectoryError) as Hr.
  { apply Hraise. by exists "src/Old.csproj". }
  split; [exact Hr|exact (Hgen Hr)].
Defined.

Lemma collector_ignores_glob_order_witness :
  exists Y,
    collected_packages Scenario.two_projects = Ok Y
    /\ collected_packages Scenario.two_projects_swapped = Ok Y.
Proof.
  destruct (collected_packages Scenario.two_projects) as [Y|e] eqn:E;
    [|vm_compute in E; discriminate E].
  exists Y. split; [reflexivity|].
  destruct (collector_ignores_glob_order elements elements
              Scenario.two_projects Scenario.two_projects_swapped)
    as [H _]; [|exact (H Y E)].
  split; [apply Permutation_swap|reflexivity].
Defined.

Lemma license_directory_stops_run_witness :
  let c := bundled_component
             ("zlib", Dir [("LICENSE", Dir [("MIT.txt", File "MIT")])]) in
  components elements Scenario.license_directory = Ok [c]
  /\ write_license_file Scenario.license_directory c = Raise IsADirectoryError
  /\ exists e, generate elements Scenario.license_directory = Raise e.
Proof.
  intros c.
  assert (components elements Scenario.license_directory = Ok [c]) as E
    by (vm_compute; reflexivity).
  split; [exact E|].
  apply (license_directory_stops_run elements Scenario.license_directory
           [c] c "LICENSE" [("MIT.txt", File "MIT")] E).
  - by left.
  - reflexivity.
  - vm_compute; reflexivity.
Defined.

Lemma bundled_ignores_iterdir_order_witness :
  detect_bundled_components Scenario.mixed
  = detect_bundled_components Scenario.mixed_reordered.
Proof.
  apply (bundled_ignores_iterdir_order Scenario.mixed Scenario.mixed_reordered
           Scenario.vendored_entries Scenario.vendored_reordered);
    [reflexivity|reflexivity| |].
  - unfold Scenario.vendored_entries, Scenario.vendored_reordered.
    etrans; [apply Permutation_swap|].
    etrans; [apply perm_skip, Permutation_swap|].
    apply Permutation_swap.
  - intros x y Hx Hy.
    unfold Scenario.vendored_entries in Hx, Hy.
    repeat (apply elem_of_cons in Hx as [->|Hx]);
      [| | |by apply elem_of_nil in Hx];
      repeat (apply elem_of_cons in Hy as [->|Hy]);
      try (by apply elem_of_nil in Hy);
      intros Hdx Hdy Hl; try reflexivity;
      vm_compute in Hdx, Hdy, Hl; discriminate.
Defined.

Lemma components_identities_witness :
  exists comps,
    components elements Scenario.mixed = Ok comps
    /\ NoDup (identity <$> comps).
Proof.
  destruct (components elements Scenario.mixed) as [comps|e] eqn:E;
    [|vm_compute in E; discriminate E].
  destruct (components_identities elements Scenario.mixed comps
              (fun X => reflexivity _) E) as (pkgs&_&_&Hnd).
  exists comps. split; [reflexivity|]. apply Hnd.
  change (subdirectories Scenario.mixed) with ["zlib"; "stb"].
  apply NoDup_cons. split; [by intros [=]%list_elem_of_singleton|].
  apply NoDup_singleton.
Defined.

Lemma output_directory_regenerated_witness :
  exists out,
    generate elements Scenario.mixed = Ok out
    /\ licenses out !! "README.md" = Some "kept".
Proof.
  destruct (generate elements Scenario.mixed) as [out|e] eqn:E;
    [|vm_compute in E; discriminate E].
  exists out. split; [reflexivity|].
  destruct (output_directory_regenerated elements Scenario.mixed out
              "README.md" E) as [H _].
  rewrite H; [|reflexivity]. vm_compute. reflexivity.
Defined.

Lemma last_record_wins_witness :
  exists out comps,
    generate elements Scenario.mixed = Ok out
    /\ components elements Scenario.mixed = Ok comps
    /\ forall c, c ∈ comps -> is_Some (licenses out !! file_name_of c).
Proof.
  destruct (generate elements Scenario.mixed) as [out|e] eqn:E;
    [|vm_compute in E; discriminate E].
  destruct (components elements Scenario.mixed) as [comps|e] eqn:Ec;
    [|vm_compute in Ec; discriminate Ec].
  exists out, comps. do 2 (split; [reflexivity|]).
  by destruct (last_record_wins elements Scenario.mixed out comps E Ec).
Defined.

Lemma license_record_format_witness :
  exists record tail,
    write_license_file Scenario.mixed Scenario.serilog_component
      = Ok ("NuGet_Serilog_3.1.1.txt", record)
    /\ record = record_prefix Scenario.serilog_component
                +:+ "Homepage:" +:+ tail +:+ nl.
Proof.
  destruct (write_license_file Scenario.mixed Scenario.serilog_component)
    as [[f record]|e] eqn:E; [|vm_compute in E; discriminate E].
  destruct (license_record_format Scenario.mixed Scenario.serilog_component
              f record E) as (->&tail&Hr&_).
  exists record, tail. split; [reflexivity|exact Hr].
Defined.

Lemma mixed_keys_distinct : keys_distinct Scenario.mixed.
Proof.
  intros Y p q HY Hp Hq Hkey.
  assert (collected_packages Scenario.mixed
          = Ok ({[ ("Serilog", "3.1.1") ]} ∪ {[ ("Dapper", "2.1.35") ]}))
    as Hc by (vm_compute; reflexivity).
  rewrite Hc in HY. injection HY as <-.
  apply elem_of_union in Hp as [->%elem_of_singleton| ->%elem_of_singleton];
    apply elem_of_union in Hq as [->%elem_of_singleton| ->%elem_of_singleton];
    try reflexivity; vm_compute in Hkey; discriminate.
Qed.



Lemma checker_reports_witness :
  (Check.main "python3" Scenario.new_record Scenario.silence).2
  = {| Check.sys_stdout :=
         Check.UNTRACKED +:+ nl +:+ "LICENSES/NuGet_Dapper_2.1.35.txt" +:+ nl;
       Check.sys_stderr := "" |}.
Proof.
  destruct (checker_reports "python3" Scenario.new_record Scenario.silence)
    as (_&_&H).
  rewrite H; [reflexivity|reflexivity| |].
  - intros Hd. by apply Hd.
  - split; [reflexivity|]. vm_compute. discriminate.
Defined.

Lemma report_order_witness :
  exists comps,
    components elements Scenario.letter_case = Ok comps
    /\ (source <$> comps) = ["Bundled"; "Bundled"; "NuGet"; "NuGet"; "NuGet"]
    /\ (name <$> comps) = ["yaml"; "Zlib"; "apple"; "Banana"; "Zebra"]
    /\ StronglySorted
         (fun x y =>
            tuple3_le (source x, lower (name x), version x)
                      (source y, lower (name y), version y)) comps.
Proof.
  destruct (components elements Scenario.letter_case) as [comps|e] eqn:E;
    [|vm_compute in E; discriminate E].
  exists comps. split; [reflexivity|].
  destruct (report_order elements Scenario.letter_case comps E) as [H _].
  do 2 (split; [vm_compute in E; by injection E as <-|]).
  exact H.
Defined.

Lemma runs_agree_witness :
  exists out,
    generate elements Scenario.mixed = Ok out
    /\ generate Scenario.reversed (after_run Scenario.mixed out) = Ok out.
Proof.
  destruct (generate elements Scenario.mixed) as [out|e] eqn:E;
    [|vm_compute in E; discriminate E].
  exists out. split; [reflexivity|].
  by destruct (runs_agree elements Scenario.reversed Scenario.mixed out
                 (fun X => reflexivity _)
                 (fun X => reverse_Permutation (elements X))
                 mixed_keys_distinct E).
Defined.
